(** * The Pkarr service of did-dht-method: publish, resolve, republish

    A shallow embedding of [impl/pkg/service/pkarr.go] (package [service])
    and of the generated PostgreSQL queries (package [postgres]), with the
    properties of the publish / resolve / republish paths proved on it.

    The service talks to three collaborators: the durable store
    ([storage.Storage]), the cache ([*bigcache.BigCache]) and the DHT
    ([*dht.DHT]).  Each is an interface over an abstract state here, so
    that every theorem holds for every implementation, failing ones
    included.  Library functions (bep44, bencode, base64, json) are the
    operations of a class; the contracts a proof needs from them are
    hypotheses of the section it lives in. *)

From Stdlib Require Import ZArith Strings.Byte DecimalString.
From stdpp Require Import base option list strings vector gmap relations.

Local Open Scope Z_scope.

(** ** Go values *)

(** A Go [error] value.  [None : option error] is the nil error. *)
Inductive error :=
| ErrValidation (fields : list string) (* validator.ValidationErrors: fields failing a tag *)
| ErrNew (msg : string)                (* errors.New(msg) *)
| ErrLib (msg : string)                (* an error made by a library or a collaborator *)
| ErrWrap (msg : string) (e : error).  (* util.LoggingErrorMsg(e, msg) *)

(** A Go pair [(T, error)] of which exactly one side is set. *)
Inductive result (A : Type) :=
| Ok (a : A)
| Err (e : error).
Arguments Ok {A} a.
Arguments Err {A} e.

(** A Go evaluation either returns or panics at run time. *)
Inductive exec (A : Type) :=
| Returns (a : A)
| Panics.
Arguments Returns {A} a.
Arguments Panics {A}.

Definition bytes := list byte.

(** A [[]byte]: [None] is the nil slice, [Some []] an empty one. *)
Definition slice := option bytes.

Definition slice_data (s : slice) : bytes := default [] s.

#[global] Instance byte_eq_dec : EqDecision byte := Byte.byte_eq_dec.

(** Conversion of a slice to an array of [n] bytes, or to a pointer to one:
    the first [n] elements of [s]; a run-time panic when [s] is shorter
    than [n]. *)
Fixpoint slice_to_array (n : nat) (s : bytes) : exec (vec byte n) :=
  match n with
  | O => Returns [#]
  | S n' =>
      match s with
      | [] => Panics
      | b :: s' =>
          match slice_to_array n' s' with
          | Returns v => Returns (b ::: v)
          | Panics => Panics
          end
      end
  end.

Definition zero_array (n : nat) : vec byte n := vreplicate n x00.

(** ** Records of the packages involved *)

(** [pkarr.Record]: the stored form, every field but [Seq] base64 text. *)
Record pkarr_Record := {
  rec_V : string;
  rec_K : string;
  rec_Sig : string;
  rec_Seq : Z }.

(** [PublishPkarrRequest], every field tagged [validate:"required"]. *)
Record PublishPkarrRequest := {
  req_V : slice;
  req_K : vec byte 32;
  req_Sig : vec byte 64;
  req_Seq : Z }.

(** [GetPkarrResponse]. *)
Record GetPkarrResponse := {
  resp_V : slice;
  resp_Seq : Z;
  resp_Sig : vec byte 64 }.

(** [bep44.Put], the fields the service sets. *)
Record bep44_Put := {
  put_V : slice;
  put_K : vec byte 32;
  put_Sig : vec byte 64;
  put_Seq : Z }.

(** The item [dht.GetFull] yields: [V] is [bencode.Bytes]. *)
Record FullGetResult := {
  got_V : bytes;
  got_Seq : Z;
  got_Sig : vec byte 64 }.

(** [bigcache.Config], the fields that matter here (durations in
    nanoseconds). *)
Record bigcache_Config := {
  Shards : Z;
  LifeWindow : Z;
  CleanWindow : Z;
  MaxEntrySize : Z;
  HardMaxCacheSize : Z }.

(** [config.Config], the fields the service reads: [DHTConfig.BootstrapPeers]
    and the three of [PkarrConfig]. *)
Record Config := {
  BootstrapPeers : list string;
  CacheTTLSeconds : Z;
  CacheSizeLimitMB : Z;
  RepublishCRON : string }.

(** ** Library functions *)

Class GoLibs := {
  (** [bep44.Verify(k, salt, seq, bv, sig)] *)
  bep44_Verify : bytes -> option bytes -> Z -> bytes -> bytes -> bool;
  (** [bencode.Marshal] of a [[]byte] *)
  bencode_Marshal : slice -> result bytes;
  (** [bencode.Bytes.MarshalBencode] *)
  bencode_Bytes_MarshalBencode : bytes -> result bytes;
  (** [bencode.Unmarshal] into a [string] *)
  bencode_Unmarshal : bytes -> result bytes;
  (** [base64.RawURLEncoding] *)
  EncodeToString : bytes -> string;
  DecodeString : string -> result bytes;
  (** [json.Marshal] and [json.Unmarshal] of a [GetPkarrResponse] *)
  json_Marshal : GetPkarrResponse -> result bytes;
  json_Unmarshal : bytes -> result GetPkarrResponse;
  (** [scheduler.Schedule(cron, job)]: only its error is observed here *)
  scheduler_Schedule : string -> option error }.

(** ** The collaborators *)

(** [storage.Storage].  [ReadRecord] returns a pointer and an error, and the
    service tells all four combinations apart. *)
Class Storage (DB : Type) := {
  WriteRecord : DB -> pkarr_Record -> option error * DB;
  ReadRecord : DB -> string -> (option pkarr_Record * option error) * DB;
  ListRecords : DB -> result (list pkarr_Record) * DB }.

(** [*bigcache.BigCache] *)
Class Cache (C : Type) := {
  bigcache_New : bigcache_Config -> result C;
  cache_Get : C -> string -> result bytes * C;
  cache_Set : C -> string -> bytes -> option error * C }.

(** [*dht.DHT] *)
Class DHT (D : Type) := {
  dht_NewDHT : list string -> result D;
  dht_Put : D -> bep44_Put -> option error * D;
  dht_GetFull : D -> string -> result FullGetResult * D }.

(** ** Logging and the calls made to the collaborators *)

Inductive Level := ErrorLevel | WarnLevel | InfoLevel | DebugLevel.

Inductive Arg :=
| AInt (z : Z)
| AStr (s : string).

(** One logrus entry: level, the error given to [WithError], format, arguments. *)
Record LogEntry := {
  log_level : Level;
  log_error : option error;
  log_format : string;
  log_args : list Arg }.

(** One call to a collaborator, with what it answered. *)
Inductive Call :=
| CallWriteRecord (r : pkarr_Record) (err : option error)
| CallReadRecord (id : string) (r : option pkarr_Record) (err : option error)
| CallListRecords (res : result (list pkarr_Record))
| CallCacheGet (id : string) (res : result bytes)
| CallCacheSet (id : string) (b : bytes) (err : option error)
| CallDhtPut (p : bep44_Put) (err : option error)
| CallDhtGetFull (id : string) (res : result FullGetResult).

(** ** package service *)

Definition recordSizeLimit : Z := 1000.

(** [time.Second], in the nanoseconds of a [time.Duration]. *)
Definition second : Z := 1000000000.

(** A result of [int64] arithmetic: the value wrapped into the 64 bits. *)
Definition wrap64 (z : Z) : Z := (z + 2 ^ 63) `mod` 2 ^ 64 - 2 ^ 63.

(** The cache configuration [NewPkarrService] builds:
    [bigcache.DefaultConfig(cacheTTL)], which has 1024 shards, with three
    fields set. *)
Definition cacheConfig (cfg : Config) : bigcache_Config :=
  let cacheTTL := wrap64 (CacheTTLSeconds cfg * second) in
  {| Shards := 1024;
     LifeWindow := cacheTTL;
     CleanWindow := cacheTTL `quot` 2;
     MaxEntrySize := recordSizeLimit;
     HardMaxCacheSize := CacheSizeLimitMB cfg |}.

(** The [required] tag of go-playground/validator, as [util.IsValidStruct]
    applies it: a slice must not be nil, an array or a number must not be
    the zero value of its type. *)
Definition required_failures (p : PublishPkarrRequest) : list string :=
  (if decide (req_V p = None) then ["V"] else []) ++
  (if decide (req_K p = zero_array 32) then ["K"] else []) ++
  (if decide (req_Sig p = zero_array 64) then ["Sig"] else []) ++
  (if decide (req_Seq p = 0) then ["Seq"] else []).

Definition IsValidStruct (p : PublishPkarrRequest) : option error :=
  match required_failures p with
  | [] => None
  | fields => Some (ErrValidation fields)
  end.

Section service.
Context `{GoLibs}.
Context {DB C D : Type} `{Storage DB} `{Cache C} `{DHT D}.

(** [PkarrService] with what the runtime holds around it: the goroutines
    started by [PublishPkarr] and not yet run, the log, and the calls made
    to the collaborators so far. *)
Record PkarrService := {
  db : DB;
  cache : C;
  dht : D;
  goroutines : list bep44_Put;
  log : list LogEntry;
  calls : list Call }.

Definition set_db (d : DB) (s : PkarrService) : PkarrService :=
  {| db := d; cache := cache s; dht := dht s; goroutines := goroutines s;
     log := log s; calls := calls s |}.
Definition set_cache (c : C) (s : PkarrService) : PkarrService :=
  {| db := db s; cache := c; dht := dht s; goroutines := goroutines s;
     log := log s; calls := calls s |}.
Definition set_dht (d : D) (s : PkarrService) : PkarrService :=
  {| db := db s; cache := cache s; dht := d; goroutines := goroutines s;
     log := log s; calls := calls s |}.
Definition set_goroutines (g : list bep44_Put) (s : PkarrService) : PkarrService :=
  {| db := db s; cache := cache s; dht := dht s; goroutines := g;
     log := log s; calls := calls s |}.
Definition add_log (e : LogEntry) (s : PkarrService) : PkarrService :=
  {| db := db s; cache := cache s; dht := dht s; goroutines := goroutines s;
     log := log s ++ [e]; calls := calls s |}.
Definition add_call (c : Call) (s : PkarrService) : PkarrService :=
  {| db := db s; cache := cache s; dht := dht s; goroutines := goroutines s;
     log := log s; calls := calls s ++ [c] |}.

(** *** The monad of service methods: state and run-time panics *)

Definition M (A : Type) : Type := PkarrService -> exec A * PkarrService.

Definition ret {A} (a : A) : M A := fun s => (Returns a, s).

Definition bind {A B} (m : M A) (k : A -> M B) : M B :=
  fun s =>
    match m s with
    | (Returns a, s') => k a s'
    | (Panics, s') => (Panics, s')
    end.

Definition lift_exec {A} (e : exec A) : M A := fun s => (e, s).

(** *** Calls to the collaborators, each recorded with its answer *)

Definition db_WriteRecord (r : pkarr_Record) : M (option error) := fun s =>
  let '(err, d) := WriteRecord (db s) r in
  (Returns err, add_call (CallWriteRecord r err) (set_db d s)).

Definition db_ReadRecord (id : string) : M (option pkarr_Record * option error) := fun s =>
  let '((r, err), d) := ReadRecord (db s) id in
  (Returns (r, err), add_call (CallReadRecord id r err) (set_db d s)).

Definition db_ListRecords : M (result (list pkarr_Record)) := fun s =>
  let '(res, d) := ListRecords (db s) in
  (Returns res, add_call (CallListRecords res) (set_db d s)).

Definition s_cache_Get (id : string) : M (result bytes) := fun s =>
  let '(res, c) := cache_Get (cache s) id in
  (Returns res, add_call (CallCacheGet id res) (set_cache c s)).

Definition s_cache_Set (id : string) (b : bytes) : M (option error) := fun s =>
  let '(err, c) := cache_Set (cache s) id b in
  (Returns err, add_call (CallCacheSet id b err) (set_cache c s)).

Definition s_dht_Put (p : bep44_Put) : M (option error) := fun s =>
  let '(err, d) := dht_Put (dht s) p in
  (Returns err, add_call (CallDhtPut p err) (set_dht d s)).

Definition s_dht_GetFull (id : string) : M (result FullGetResult) := fun s =>
  let '(res, d) := dht_GetFull (dht s) id in
  (Returns res, add_call (CallDhtGetFull id res) (set_dht d s)).

(** [logrus.WithError(err).<Level>f(format, args...)] *)
Definition logf (l : Level) (err : option error) (format : string) (args : list Arg) : M unit :=
  fun s => (Returns tt,
            add_log {| log_level := l; log_error := err; log_format := format;
                       log_args := args |} s).

(** [go func() { ... s.dht.Put(ctx, put) ... }()]: the goroutine is started,
    not run. *)
Definition go_Put (p : bep44_Put) : M unit :=
  fun s => (Returns tt, set_goroutines (goroutines s ++ [p]) s).

End service.

Arguments PkarrService : clear implicits.
Arguments M : clear implicits.

Declare Scope go_scope.
Delimit Scope go_scope with go.
Notation "x <- m ;; k" := (bind m (fun x => k))
  (at level 20, m at level 99, k at level 200, only parsing) : go_scope.
Notation "' pat <- m ;; k" := (bind m (fun x => match x with pat => k end))
  (at level 20, pat pattern, m at level 99, k at level 200, only parsing) : go_scope.
Notation "m ;; k" := (bind m (fun _ => k))
  (at level 100, k at level 200, only parsing, right associativity) : go_scope.

Section methods.
Context `{GoLibs}.
Context {DB C D : Type} `{Storage DB} `{Cache C} `{DHT D}.

Abbreviation Svc := (PkarrService DB C D).
Abbreviation M := (M DB C D).

(** [NewPkarrService].  The helpers of [util] that make its errors also log
    them; there is no service yet to keep that log. *)
Definition NewPkarrService (cfg : option Config) (db : DB) : result Svc :=
  match cfg with
  | None => Err (ErrNew "config is required")
  | Some cfg =>
      match dht_NewDHT (BootstrapPeers cfg) with
      | Err err => Err (ErrWrap "failed to instantiate dht" err)
      | Ok d =>
          match bigcache_New (cacheConfig cfg) with
          | Err err => Err (ErrWrap "failed to instantiate cache" err)
          | Ok cache =>
              match scheduler_Schedule (RepublishCRON cfg) with
              | Some err => Err (ErrWrap "failed to start republisher" err)
              | None =>
                  Ok {| db := db; cache := cache; dht := d; goroutines := [];
                        log := []; calls := [] |}
              end
          end
      end
  end.

(** [PublishPkarrRequest.isValid] *)
Definition isValid (p : PublishPkarrRequest) : option error :=
  match IsValidStruct p with
  | Some err => Some err
  | None =>
      match bencode_Marshal (req_V p) with
      | Err err => Some err
      | Ok bv =>
          if negb (bep44_Verify (vec_to_list (req_K p)) None (req_Seq p) bv
                     (vec_to_list (req_Sig p)))
          then Some (ErrNew "signature is invalid")
          else None
      end
  end.

(** [PublishPkarrRequest.toRecord] *)
Definition toRecord (p : PublishPkarrRequest) : pkarr_Record :=
  {| rec_V := EncodeToString (slice_data (req_V p));
     rec_K := EncodeToString (vec_to_list (req_K p));
     rec_Sig := EncodeToString (vec_to_list (req_Sig p));
     rec_Seq := req_Seq p |}.

(** The response [PublishPkarr] caches for a request. *)
Definition response_of (request : PublishPkarrRequest) : GetPkarrResponse :=
  {| resp_V := req_V request; resp_Seq := req_Seq request;
     resp_Sig := req_Sig request |}.

(** The put the goroutine of [PublishPkarr] issues for a request. *)
Definition put_of (request : PublishPkarrRequest) : bep44_Put :=
  {| put_V := req_V request; put_K := req_K request;
     put_Sig := req_Sig request; put_Seq := req_Seq request |}.

(** [PkarrService.PublishPkarr] *)
Definition PublishPkarr (id : string) (request : PublishPkarrRequest) : M (option error) :=
  (match isValid request with
   | Some err => ret (Some err)
   | None =>
       let record := toRecord request in
       err <- db_WriteRecord record ;;
       match err with
       | Some err => ret (Some err)
       | None =>
           match json_Marshal (response_of request) with
           | Err err => ret (Some err)
           | Ok recordBytes =>
               err <- s_cache_Set id recordBytes ;;
               match err with
               | Some err => ret (Some err)
               | None =>
                   go_Put (put_of request) ;;
                   ret None
               end
           end
       end
   end)%go.

(** The body of the goroutine [PublishPkarr] starts. *)
Definition goroutine_body (p : bep44_Put) : M unit :=
  (err <- s_dht_Put p ;;
   match err with
   | Some err => logf ErrorLevel (Some err) "error from dht.Put" []
   | None => ret tt
   end)%go.

(** The Go runtime picks any started goroutine and runs it. *)
Inductive go_step : Svc -> Svc -> Prop :=
| go_step_run s i p s' :
    goroutines s !! i = Some p ->
    goroutine_body p (set_goroutines (delete i (goroutines s)) s) = (Returns tt, s') ->
    go_step s s'.

(** [fromPkarrRecord] *)
Definition fromPkarrRecord (record : pkarr_Record) : exec (result GetPkarrResponse) :=
  match DecodeString (rec_V record) with
  | Err err => Returns (Err err)
  | Ok vBytes =>
      match DecodeString (rec_Sig record) with
      | Err err => Returns (Err err)
      | Ok sigBytes =>
          match slice_to_array 64 sigBytes with
          | Panics => Panics
          | Returns sig =>
              Returns (Ok {| resp_V := Some vBytes; resp_Seq := rec_Seq record;
                             resp_Sig := sig |})
          end
      end
  end.

(** [PkarrService.addRecordToCache] *)
Definition addRecordToCache (id : string) (resp : GetPkarrResponse) : M (option error) :=
  (match json_Marshal resp with
   | Err err => ret (Some err)
   | Ok recordBytes =>
       err <- s_cache_Set id recordBytes ;;
       match err with
       | Some err => ret (Some err)
       | None => ret None
       end
   end)%go.

(** [PkarrService.GetPkarr]; the pair is the pointer and the error it
    returns. *)
Definition GetPkarr (id : string) : M (option GetPkarrResponse * option error) :=
  (got <- s_cache_Get id ;;
   match got with
   | Ok got =>
       match json_Unmarshal got with
       | Err err => ret (None, Some err)
       | Ok resp =>
           logf DebugLevel None "resolved pkarr record[%s] from cache" [AStr id] ;;
           ret (Some resp, None)
       end
   | Err _ =>
       got <- s_dht_GetFull id ;;
       match got with
       | Err err =>
           logf WarnLevel (Some err)
             "failed to get pkarr record[%s] from dht, attempting to resolve from storage"
             [AStr id] ;;
           '(record, err) <- db_ReadRecord id ;;
           match record, err with
           | Some record, None =>
               logf DebugLevel None "resolved pkarr record[%s] from storage" [AStr id] ;;
               r <- lift_exec (fromPkarrRecord record) ;;
               match r with
               | Err err => ret (None, Some err)
               | Ok resp =>
                   err <- addRecordToCache id resp ;;
                   match err with
                   | Some err =>
                       logf ErrorLevel (Some err)
                         "failed to set pkarr record[%s] in cache" [AStr id] ;;
                       ret (Some resp, Some err)
                   | None => ret (Some resp, None)
                   end
               end
           | _, _ =>
               logf ErrorLevel err "failed to resolve pkarr record[%s] from storage"
                 [AStr id] ;;
               ret (None, err)
           end
       | Ok got =>
           match bencode_Bytes_MarshalBencode (got_V got) with
           | Err err => ret (None, Some err)
           | Ok bBytes =>
               match bencode_Unmarshal bBytes with
               | Err err => ret (None, Some err)
               | Ok payload =>
                   let resp := {| resp_V := Some payload; resp_Seq := got_Seq got;
                                  resp_Sig := got_Sig got |} in
                   err <- addRecordToCache id resp ;;
                   match err with
                   | Some err =>
                       logf ErrorLevel (Some err)
                         "failed to set pkarr record[%s] in cache" [AStr id] ;;
                       ret (Some resp, None)
                   | None => ret (Some resp, None)
                   end
               end
           end
       end
   end)%go.

(** [recordToBEP44Put] *)
Definition recordToBEP44Put (record : pkarr_Record) : exec (result bep44_Put) :=
  match DecodeString (rec_V record) with
  | Err err => Returns (Err err)
  | Ok vBytes =>
      match DecodeString (rec_K record) with
      | Err err => Returns (Err err)
      | Ok kBytes =>
          match DecodeString (rec_Sig record) with
          | Err err => Returns (Err err)
          | Ok sigBytes =>
              match slice_to_array 32 kBytes, slice_to_array 64 sigBytes with
              | Returns k, Returns sig =>
                  Returns (Ok {| put_V := Some vBytes; put_K := k; put_Sig := sig;
                                 put_Seq := rec_Seq record |})
              | _, _ => Panics
              end
          end
      end
  end.

(** The [for _, record := range allRecords] loop of [republish], from the
    records still to visit and the current [errCnt] to the final [errCnt]. *)
Fixpoint republish_loop (records : list pkarr_Record) (errCnt : Z) : M Z :=
  match records with
  | [] => ret errCnt
  | record :: rest =>
      (r <- lift_exec (recordToBEP44Put record) ;;
       match r with
       | Err err =>
           logf ErrorLevel (Some err) "failed to convert record to bep44 put" [] ;;
           republish_loop rest (errCnt + 1)
       | Ok put =>
           err <- s_dht_Put put ;;
           match err with
           | Some err =>
               logf ErrorLevel (Some err) "failed to republish record" [] ;;
               republish_loop rest (errCnt + 1)
           | None => republish_loop rest errCnt
           end
       end)%go
  end.

(** [PkarrService.republish] *)
Definition republish : M unit :=
  (res <- db_ListRecords ;;
   match res with
   | Err err =>
       logf ErrorLevel (Some err) "failed to list record(s) for republishing" []
   | Ok allRecords =>
       if decide (length allRecords = 0%nat)
       then logf InfoLevel None "No records to republish" []
       else
         logf InfoLevel None "Republishing [%d] record(s)"
           [AInt (Z.of_nat (length allRecords))] ;;
         errCnt <- republish_loop allRecords 0 ;;
         logf InfoLevel None
           "Republishing complete. Successfully republished %d out of %d record(s)"
           [AInt (Z.of_nat (length allRecords) - errCnt);
            AInt (Z.of_nat (length allRecords))]
   end)%go.

End methods.

(** ** What the properties are stated with *)

Section specification.
Context `{GoLibs}.
Context {DB C D : Type} `{Storage DB} `{Cache C} `{DHT D}.

(** The signature of a request verifies against [(K, Seq, V)]: the check of
    [isValid] after the field validation. *)
Definition signature_verifies (p : PublishPkarrRequest) : Prop :=
  exists bv, bencode_Marshal (req_V p) = Ok bv /\
    bep44_Verify (vec_to_list (req_K p)) None (req_Seq p) bv
      (vec_to_list (req_Sig p)) = true.

(** [json.Unmarshal] reads back what [json.Marshal] wrote. *)
Definition json_roundtrips : Prop :=
  forall r b, json_Marshal r = Ok b -> json_Unmarshal b = Ok r.

(** [base64.RawURLEncoding] decodes what it encoded. *)
Definition base64_roundtrips : Prop :=
  forall b, DecodeString (EncodeToString b) = Ok b.

(** An entry just set is the one the cache gives back (no expiry or eviction
    in between). *)
Definition cache_reads_own_writes : Prop :=
  forall (c : C) id b c1,
    cache_Set c id b = (None, c1) -> exists c2, cache_Get c1 id = (Ok b, c2).

(** The cache may refuse an entry longer than [recordSizeLimit] bytes. *)
Definition cache_enforces_entry_limit : Prop :=
  forall (c : C) id b,
    recordSizeLimit < Z.of_nat (length b) ->
    exists err c1, cache_Set c id b = (Some err, c1).

Definition log_cache_hit (id : string) : LogEntry :=
  {| log_level := DebugLevel; log_error := None;
     log_format := "resolved pkarr record[%s] from cache"; log_args := [AStr id] |}.

Definition log_convert_failed (err : error) : LogEntry :=
  {| log_level := ErrorLevel; log_error := Some err;
     log_format := "failed to convert record to bep44 put"; log_args := [] |}.

Definition log_put_failed (err : error) : LogEntry :=
  {| log_level := ErrorLevel; log_error := Some err;
     log_format := "failed to republish record"; log_args := [] |}.

Definition log_republishing (n : nat) : LogEntry :=
  {| log_level := InfoLevel; log_error := None;
     log_format := "Republishing [%d] record(s)"; log_args := [AInt (Z.of_nat n)] |}.

Definition log_complete (succeeded total : Z) : LogEntry :=
  {| log_level := InfoLevel; log_error := None;
     log_format :=
       "Republishing complete. Successfully republished %d out of %d record(s)";
     log_args := [AInt succeeded; AInt total] |}.

(** What one turn of the loop did with its record. *)
Inductive Visit :=
| VisitConvertFailed (err : error)
| VisitPut (p : bep44_Put) (err : option error).

Definition visit_of (record : pkarr_Record) (v : Visit) : Prop :=
  match v with
  | VisitConvertFailed err => recordToBEP44Put record = Returns (Err err)
  | VisitPut p _ => recordToBEP44Put record = Returns (Ok p)
  end.

Definition visit_call (v : Visit) : option Call :=
  match v with
  | VisitConvertFailed _ => None
  | VisitPut p err => Some (CallDhtPut p err)
  end.

Definition visit_log (v : Visit) : option LogEntry :=
  match v with
  | VisitConvertFailed err => Some (log_convert_failed err)
  | VisitPut _ (Some err) => Some (log_put_failed err)
  | VisitPut _ None => None
  end.

Definition visit_failed (v : Visit) : bool :=
  match v with
  | VisitPut _ None => false
  | _ => true
  end.

Definition failed_count (visits : list Visit) : Z :=
  Z.of_nat (length (filter (fun v => visit_failed v = true) visits)).

(** A record whose fields decode, the key to at least 32 bytes and the
    signature to at least 64: every record [toRecord] makes is one. *)
Definition well_formed (record : pkarr_Record) : Prop :=
  exists v k sig,
    DecodeString (rec_V record) = Ok v /\
    DecodeString (rec_K record) = Ok k /\
    DecodeString (rec_Sig record) = Ok sig /\
    (32 <= length k)%nat /\ (64 <= length sig)%nat.

Definition attempt_visit (a : bep44_Put * option error) : Visit := VisitPut a.1 a.2.

Definition attempt_call (a : bep44_Put * option error) : Call := CallDhtPut a.1 a.2.

(** The errors of the attempts that failed. *)
Definition failures (attempts : list (bep44_Put * option error)) : list error :=
  omap snd attempts.

End specification.

(** ** package postgres: the generated queries *)

Module postgres.

(** A row of [pkarr_records] as the queries scan it (the generated
    [PkarrRecord]). *)
Record PkarrRecord := {
  Key : string;
  Value : string;
  Sig : string;
  Seq : Z }.

Record WriteRecordParams := {
  arg_Key : string;
  arg_Value : string;
  arg_Sig : string;
  arg_Seq : Z }.

(** The database behind [q.db]: the rows of [pkarr_records] in the order a
    scan yields them; whether the table, whose definition is not among the
    sources, has a uniqueness constraint on [key]; the error every statement
    fails with while the connection is down. *)
Record Queries := {
  pkarr_records : list PkarrRecord;
  key_unique : bool;
  down : option error }.

Definition ErrNoRows : error := ErrLib "no rows in result set".

Definition ErrUniqueViolation : error :=
  ErrLib "duplicate key value violates unique constraint".

Definition zero_PkarrRecord : PkarrRecord :=
  {| Key := ""; Value := ""; Sig := ""; Seq := 0 |}.

Definition has_key (key : string) (row : PkarrRecord) : bool :=
  bool_decide (Key row = key).

(** [SELECT key, value, sig, seq FROM pkarr_records] *)
Definition ListRecords (q : Queries) : result (list PkarrRecord) :=
  match down q with
  | Some err => Err err
  | None => Ok (pkarr_records q)
  end.

(** [SELECT key, value, sig, seq FROM pkarr_records WHERE key = $1 LIMIT 1]:
    the row scanned, or the zero row and the error of [Scan]. *)
Definition ReadRecord (q : Queries) (key : string) : PkarrRecord * option error :=
  match down q with
  | Some err => (zero_PkarrRecord, Some err)
  | None =>
      match List.find (has_key key) (pkarr_records q) with
      | Some row => (row, None)
      | None => (zero_PkarrRecord, Some ErrNoRows)
      end
  end.

Definition row_of (arg : WriteRecordParams) : PkarrRecord :=
  {| Key := arg_Key arg; Value := arg_Value arg; Sig := arg_Sig arg;
     Seq := arg_Seq arg |}.

(** [INSERT INTO pkarr_records(key, value, sig, seq) VALUES($1, $2, $3, $4)] *)
Definition WriteRecord (q : Queries) (arg : WriteRecordParams) : option error * Queries :=
  match down q with
  | Some err => (Some err, q)
  | None =>
      if key_unique q && existsb (has_key (arg_Key arg)) (pkarr_records q)
      then (Some ErrUniqueViolation, q)
      else (None, {| pkarr_records := pkarr_records q ++ [row_of arg];
                     key_unique := key_unique q; down := down q |})
  end.

(** What an upsert keyed by [key] would make of two writes of the same
    arguments: the second succeeds and leaves the table as the first left
    it. *)
Definition second_write_overwrites (q : Queries) (arg : WriteRecordParams) : Prop :=
  forall q1, WriteRecord q arg = (None, q1) ->
    exists q2, WriteRecord q1 arg = (None, q2) /\
               pkarr_records q2 = pkarr_records q1.

(** [WriteRecord] for each of the arguments in turn: every argument with the
    error it got, and the table at the end. *)
Fixpoint WriteRecords (q : Queries) (args : list WriteRecordParams) :
    list (WriteRecordParams * option error) * Queries :=
  match args with
  | [] => ([], q)
  | arg :: rest =>
      let '(err, q1) := WriteRecord q arg in
      let '(answers, q2) := WriteRecords q1 rest in
      ((arg, err) :: answers, q2)
  end.

(** The rows of the writes that succeeded. *)
Definition written_rows (answers : list (WriteRecordParams * option error)) :
    list PkarrRecord :=
  omap (fun a => match a.2 with None => Some (row_of a.1) | Some _ => None end) answers.

Definition record_of (row : PkarrRecord) : pkarr_Record :=
  {| rec_V := Value row; rec_K := Key row; rec_Sig := Sig row; rec_Seq := Seq row |}.

Definition params_of (record : pkarr_Record) : WriteRecordParams :=
  {| arg_Key := rec_K record; arg_Value := rec_V record;
     arg_Sig := rec_Sig record; arg_Seq := rec_Seq record |}.

End postgres.

(** Modelled from the spec: the [storage.Storage] implementation over the
    generated queries is not among the sources.  The spec gives its
    operations, [WriteRecord(ctx, record) -> err],
    [ReadRecord(ctx, id) -> (record, err)] and
    [ListRecords(ctx) -> ([]record, err)]; the four columns take the four
    fields of a record, and a record is looked up under the id given. *)
#[global] Instance Postgres : Storage postgres.Queries := {|
  WriteRecord := fun q record => postgres.WriteRecord q (postgres.params_of record);
  ReadRecord := fun q id =>
    match postgres.ReadRecord q id with
    | (_, Some err) => ((None, Some err), q)
    | (row, None) => ((Some (postgres.record_of row), None), q)
    end;
  ListRecords := fun q =>
    match postgres.ListRecords q with
    | Err err => (Err err, q)
    | Ok rows => (Ok (map postgres.record_of rows), q)
    end |}.

(** ** Stand-ins to run the service on concrete inputs

    The signature scheme, the serializers and the two network-facing
    collaborators cannot be run here; these take their place in the examples.
    No theorem about the service depends on them. *)

Definition array_of (n : nat) (l : bytes) : vec byte n :=
  match slice_to_array n l with
  | Returns v => v
  | Panics => zero_array n
  end.

Definition byte_of_Z (z : Z) : byte := default x00 (Byte.of_N (Z.to_N (z `mod` 256))).

(** A keyed checksum in place of ed25519: the key, then 32 bytes of the
    sequence number and the encoded payload. *)
Definition standin_sign (k : bytes) (seq : Z) (bv : bytes) : bytes :=
  k ++ take 32 (byte_of_Z seq :: bv ++ replicate 32 x00).

Definition decimal (n : nat) : bytes :=
  String.list_byte_of_string (DecimalString.NilZero.string_of_uint (Nat.to_uint n)).

(** bencode of a byte string: its length in decimal, a colon, the bytes. *)
Definition bencode_bytes (v : bytes) : bytes := decimal (length v) ++ x3a :: v.

Fixpoint split_colon (b : bytes) : option (bytes * bytes) :=
  match b with
  | [] => None
  | c :: rest =>
      if decide (c = x3a) then Some ([], rest)
      else match split_colon rest with
           | Some (digits, payload) => Some (c :: digits, payload)
           | None => None
           end
  end.

Definition bdecode_bytes (b : bytes) : result bytes :=
  match split_colon b with
  | Some (digits, payload) =>
      if decide (digits = decimal (length payload)) then Ok payload
      else Err (ErrLib "bencode: bad length")
  | None => Err (ErrLib "bencode: not a string")
  end.

(** The leading [x01] bytes of [b], counted, and what follows them. *)
Fixpoint count_ones (b : bytes) : nat * bytes :=
  match b with
  | c :: rest =>
      if decide (c = x01)
      then let '(n, tail) := count_ones rest in (S n, tail)
      else (O, b)
  | [] => (O, [])
  end.

Definition standin_seq (z : Z) : bytes :=
  (if decide (z < 0) then x01 else x00) :: replicate (Z.abs_nat z) x01 ++ [x00].

Definition standin_payload (v : slice) : bytes :=
  match v with
  | None => [x00]
  | Some l => x01 :: l
  end.

(** An injective serialization in place of JSON: the signature, the sequence
    number in unary after its sign, the payload after a byte telling nil
    from not nil. *)
Definition standin_Marshal (r : GetPkarrResponse) : result bytes :=
  Ok (vec_to_list (resp_Sig r) ++ standin_seq (resp_Seq r) ++ standin_payload (resp_V r)).

Definition standin_Unmarshal (b : bytes) : result GetPkarrResponse :=
  let bad := Err (ErrLib "unexpected end of JSON input") in
  match slice_to_array 64 b, drop 64 b with
  | Returns sig, sign :: rest =>
      match count_ones rest with
      | (n, c :: payload) =>
          let seq := if decide (sign = x01) then - Z.of_nat n else Z.of_nat n in
          if decide (c = x00) then
            match payload with
            | [] => bad
            | t :: l =>
                if decide (t = x01)
                then Ok {| resp_V := Some l; resp_Seq := seq; resp_Sig := sig |}
                else match l with
                     | [] => Ok {| resp_V := None; resp_Seq := seq; resp_Sig := sig |}
                     | _ => bad
                     end
            end
          else bad
      | _ => bad
      end
  | _, _ => bad
  end.

Definition standin_libs : GoLibs := {|
  bep44_Verify := fun k _ seq bv sig => bool_decide (sig = standin_sign k seq bv);
  bencode_Marshal := fun v => Ok (bencode_bytes (slice_data v));
  bencode_Bytes_MarshalBencode := fun b =>
    match b with
    | [] => Err (ErrLib "marshalled Bytes should not be zero-length")
    | _ => Ok b
    end;
  bencode_Unmarshal := bdecode_bytes;
  EncodeToString := String.string_of_list_byte;
  DecodeString := fun s => Ok (String.list_byte_of_string s);
  json_Marshal := standin_Marshal;
  json_Unmarshal := standin_Unmarshal;
  scheduler_Schedule := fun cron =>
    if decide (cron = "") then Some (ErrLib "empty spec string") else None |}.

(** An in-memory cache in the manner of bigcache: [MaxEntrySize] only sizes
    the first allocation of a shard and refuses nothing; with
    [HardMaxCacheSize] (in MB, shared by the shards) set, an entry larger than
    a shard, its 18 bytes of header and its key counted, is refused.  Expiry
    and eviction are left out. *)
Record MemCache := {
  mc_shard_bytes : option Z;
  mc_entries : gmap string bytes }.

Definition entry_bytes (id : string) (b : bytes) : Z :=
  18 + Z.of_nat (String.length id) + Z.of_nat (length b).

Definition MemCache_Cache : Cache MemCache := {|
  bigcache_New := fun cfg =>
    if decide (HardMaxCacheSize cfg < 0)
    then Err (ErrLib "HardMaxCacheSize must be >= 0")
    else Ok {| mc_shard_bytes :=
                 if decide (HardMaxCacheSize cfg = 0) then None
                 else Some (HardMaxCacheSize cfg * 1024 * 1024 `quot` Shards cfg);
               mc_entries := ∅ |};
  cache_Get := fun c id =>
    match mc_entries c !! id with
    | Some b => (Ok b, c)
    | None => (Err (ErrLib "Entry not found"), c)
    end;
  cache_Set := fun c id b =>
    match mc_shard_bytes c with
    | Some m =>
        if decide (m < entry_bytes id b)
        then (Some (ErrLib "entry is bigger than max shard size"), c)
        else (None, {| mc_shard_bytes := mc_shard_bytes c;
                       mc_entries := <[id := b]> (mc_entries c) |})
    | None => (None, {| mc_shard_bytes := mc_shard_bytes c;
                        mc_entries := <[id := b]> (mc_entries c) |})
    end |}.

(** A DHT that keeps the puts it took, refuses the puts whose sequence number
    is in [md_refused], and finds the items of [md_items]. *)
Record MemDHT := {
  md_refused : list Z;
  md_puts : list bep44_Put;
  md_items : gmap string FullGetResult }.

Definition MemDHT_DHT : DHT MemDHT := {|
  dht_NewDHT := fun _ => Ok {| md_refused := []; md_puts := []; md_items := ∅ |};
  dht_Put := fun d p =>
    if decide (put_Seq p ∈ md_refused d)
    then (Some (ErrLib "put refused"), d)
    else (None, {| md_refused := md_refused d; md_puts := md_puts d ++ [p];
                   md_items := md_items d |});
  dht_GetFull := fun d id =>
    match md_items d !! id with
    | Some item => (Ok item, d)
    | None => (Err (ErrLib "item not found"), d)
    end |}.

(** *** Sample data *)

Definition sample_request (v : bytes) (k : vec byte 32) (seq : Z) : PublishPkarrRequest :=
  {| req_V := Some v; req_K := k;
     req_Sig := array_of 64 (standin_sign (vec_to_list k) seq (bencode_bytes v));
     req_Seq := seq |}.

Definition k1 : vec byte 32 := vreplicate 32 x01.

Definition k2 : vec byte 32 := vreplicate 32 x02.

Definition hello : bytes := String.list_byte_of_string "hello".

Definition world : bytes := String.list_byte_of_string "world".

Definition sample_config : Config :=
  {| BootstrapPeers := ["router.example:6881"]; CacheTTLSeconds := 600;
     CacheSizeLimitMB := 1000; RepublishCRON := "0 */2 * * *" |}.

Definition empty_table : postgres.Queries :=
  {| postgres.pkarr_records := []; postgres.key_unique := false;
     postgres.down := None |}.

Definition empty_unique_table : postgres.Queries :=
  {| postgres.pkarr_records := []; postgres.key_unique := true;
     postgres.down := None |}.

Definition sample_service (q : postgres.Queries) :
    PkarrService postgres.Queries MemCache MemDHT :=
  {| db := q;
     cache := {| mc_shard_bytes := Some (1000 * 1024); mc_entries := ∅ |};
     dht := {| md_refused := []; md_puts := []; md_items := ∅ |};
     goroutines := []; log := []; calls := [] |}.

(** A key-value store in the manner of a bolt bucket: a write replaces what is
    under the key, and a key that is absent reads as a nil record with a nil
    error. *)
Definition MapStore_Storage : Storage (gmap string pkarr_Record) := {|
  WriteRecord := fun m record => (None, <[rec_K record := record]> m);
  ReadRecord := fun m id => ((m !! id, None), m);
  ListRecords := fun m => (Ok (map snd (map_to_list m)), m) |}.

Definition request_hello : PublishPkarrRequest := sample_request hello k1 1.
Definition request_world_0 : PublishPkarrRequest := sample_request world k1 0.
Definition request_hello_2 : PublishPkarrRequest := sample_request hello k1 2.
Definition request_world_1 : PublishPkarrRequest := sample_request world k1 1.

(** A base64 stand-in that refuses a string holding an exclamation mark, as
    the real decoder refuses a byte outside its alphabet. *)
Definition strict_DecodeString (s : string) : result bytes :=
  if decide (x21 ∈ String.list_byte_of_string s)
  then Err (ErrLib "illegal base64 data")
  else Ok (String.list_byte_of_string s).

Definition strict_libs : GoLibs := {|
  bep44_Verify := @bep44_Verify standin_libs;
  bencode_Marshal := @bencode_Marshal standin_libs;
  bencode_Bytes_MarshalBencode := @bencode_Bytes_MarshalBencode standin_libs;
  bencode_Unmarshal := @bencode_Unmarshal standin_libs;
  EncodeToString := String.string_of_list_byte;
  DecodeString := strict_DecodeString;
  json_Marshal := standin_Marshal;
  json_Unmarshal := standin_Unmarshal;
  scheduler_Schedule := @scheduler_Schedule standin_libs |}.

Section samples.
#[local] Existing Instance standin_libs.
#[local] Existing Instance MemCache_Cache.
#[local] Existing Instance MemDHT_DHT.

Abbreviation Svc := (PkarrService postgres.Queries MemCache MemDHT).
Abbreviation KV := (PkarrService (gmap string pkarr_Record) MemCache MemDHT).

Definition forged : PublishPkarrRequest :=
  {| req_V := Some hello; req_K := k1; req_Sig := vreplicate 64 x07; req_Seq := 1 |}.

Definition published : Svc :=
  (PublishPkarr "abc" request_hello (sample_service empty_table)).2.

Definition announced : Svc :=
  (goroutine_body (put_of request_hello) (set_goroutines [] published)).2.

(** The service restarted over the table [published] left: the cache and the
    DHT know nothing. *)
Definition restarted : Svc := sample_service (db published).

Definition id_hello : string := rec_K (toRecord request_hello).

Definition cache_full : Svc :=
  {| db := empty_table;
     cache := {| mc_shard_bytes := Some 0; mc_entries := ∅ |};
     dht := {| md_refused := []; md_puts := []; md_items := ∅ |};
     goroutines := []; log := []; calls := [] |}.

(** Three records in the table, and a DHT that refuses the one of Seq 2. *)
Definition three_records : list pkarr_Record :=
  [toRecord (sample_request hello k1 1); toRecord (sample_request world k2 2);
   toRecord (sample_request hello k2 3)].

Definition tick_service : Svc :=
  {| db := {| postgres.pkarr_records :=
                map (fun r => postgres.row_of (postgres.params_of r)) three_records;
              postgres.key_unique := false; postgres.down := None |};
     cache := {| mc_shard_bytes := None; mc_entries := ∅ |};
     dht := {| md_refused := [2]; md_puts := []; md_items := ∅ |};
     goroutines := []; log := []; calls := [] |}.

Definition empty_bucket : KV :=
  {| db := ∅;
     cache := {| mc_shard_bytes := None; mc_entries := ∅ |};
     dht := {| md_refused := []; md_puts := []; md_items := ∅ |};
     goroutines := []; log := []; calls := [] |}.

Definition published_twice : Svc := (PublishPkarr "abc" request_hello published).2.

Definition args_hello : postgres.WriteRecordParams :=
  postgres.params_of (toRecord request_hello).

Definition published_2 : Svc :=
  (PublishPkarr "abc" request_hello_2 (sample_service empty_table)).2.

Definition long_payload : bytes := replicate 1001 x61.

Definition request_long : PublishPkarrRequest := sample_request long_payload k1 1.

Definition started : Svc :=
  match NewPkarrService (Some sample_config) empty_table with
  | Ok s => s
  | Err _ => sample_service empty_table
  end.

Definition request_zero_fields : PublishPkarrRequest :=
  {| req_V := Some hello; req_K := zero_array 32; req_Sig := vreplicate 64 x07;
     req_Seq := 0 |}.

Definition corrupt_cache : Svc :=
  {| db := empty_table;
     cache := {| mc_shard_bytes := None; mc_entries := {["abc" := [x00]]} |};
     dht := {| md_refused := []; md_puts := []; md_items := ∅ |};
     goroutines := []; log := []; calls := [] |}.

Definition item_hello : FullGetResult :=
  {| got_V := bencode_bytes hello; got_Seq := 1; got_Sig := req_Sig request_hello |}.

Definition dht_has_item : Svc :=
  {| db := empty_table;
     cache := {| mc_shard_bytes := None; mc_entries := ∅ |};
     dht := {| md_refused := []; md_puts := []; md_items := {["abc" := item_hello]} |};
     goroutines := []; log := []; calls := [] |}.

Definition restarted_cache_full : Svc :=
  {| db := db published;
     cache := {| mc_shard_bytes := Some 0; mc_entries := ∅ |};
     dht := {| md_refused := []; md_puts := []; md_items := ∅ |};
     goroutines := []; log := []; calls := [] |}.

Definition connection_refused : error := ErrLib "connection refused".

Definition store_down : Svc :=
  sample_service {| postgres.pkarr_records := []; postgres.key_unique := false;
                    postgres.down := Some connection_refused |}.

(** A row whose signature is empty, under the key "short". *)
Definition short_sig_record : pkarr_Record :=
  {| rec_V := "hello"; rec_K := "short"; rec_Sig := ""; rec_Seq := 1 |}.

(** A row whose payload does not decode, under the key "bad". *)
Definition undecodable_record : pkarr_Record :=
  {| rec_V := "!"; rec_K := "bad"; rec_Sig := ""; rec_Seq := 1 |}.

Definition table_of (records : list pkarr_Record) : postgres.Queries :=
  {| postgres.pkarr_records :=
       map (fun r => postgres.row_of (postgres.params_of r)) records;
     postgres.key_unique := false; postgres.down := None |}.

Definition two_requests : list PublishPkarrRequest :=
  [request_hello; sample_request world k2 2].

Definition refusing_service (records : list pkarr_Record) : Svc :=
  {| db := table_of records;
     cache := {| mc_shard_bytes := None; mc_entries := ∅ |};
     dht := {| md_refused := [2]; md_puts := []; md_items := ∅ |};
     goroutines := []; log := []; calls := [] |}.

Definition mixed_records : list pkarr_Record :=
  [@toRecord strict_libs request_hello; undecodable_record;
   @toRecord strict_libs (sample_request world k2 2)].

End samples.

(** * Properties *)


(** ** Validation *)

Section validation.
Context `{GoLibs}.

Lemma isValid_None (p : PublishPkarrRequest) :
  isValid p = None <-> IsValidStruct p = None /\ signature_verifies p.
Proof.
  unfold isValid, signature_verifies. split.
  - destruct (IsValidStruct p); [discriminate|].
    destruct (bencode_Marshal (req_V p)) as [bv|e] eqn:Hbv; [|discriminate].
    destruct (bep44_Verify _ _ _ _ _) eqn:Hv; [|discriminate].
    intros _. split; [done|]. by exists bv.
  - intros [-> (bv & -> & ->)]. done.
Qed.

Lemma isValid_unverified (p : PublishPkarrRequest) :
  ~ signature_verifies p -> exists err, isValid p = Some err.
Proof.
  intros Hn. destruct (isValid p) as [err|] eqn:Hv; [by exists err|].
  apply isValid_None in Hv as [_ Hs]. by destruct Hn.
Qed.

Lemma IsValidStruct_None (p : PublishPkarrRequest) :
  IsValidStruct p = None <->
  req_V p <> None /\ req_K p <> zero_array 32 /\ req_Sig p <> zero_array 64 /\
  req_Seq p <> 0.
Proof.
  unfold IsValidStruct, required_failures.
  destruct (decide (req_V p = None)), (decide (req_K p = zero_array 32)),
    (decide (req_Sig p = zero_array 64)), (decide (req_Seq p = 0));
    simpl; split; try discriminate; intuition congruence.
Qed.

End validation.

(** ** The publish path *)

Section publish.
Context `{GoLibs}.
Context {DB C D : Type} `{Storage DB} `{Cache C}.

Abbreviation Svc := (PkarrService DB C D).

(** Every way through [PublishPkarr], by the answers of the validation, the
    store, the serializer and the cache. *)
Lemma PublishPkarr_invalid id request err (s : Svc) :
  isValid request = Some err ->
  PublishPkarr id request s = (Returns (Some err), s).
Proof. intros Hv. unfold PublishPkarr. by rewrite Hv. Qed.

Lemma PublishPkarr_write_fails id request err db1 (s : Svc) :
  isValid request = None ->
  WriteRecord (db s) (toRecord request) = (Some err, db1) ->
  PublishPkarr id request s =
    (Returns (Some err),
     add_call (CallWriteRecord (toRecord request) (Some err)) (set_db db1 s)).
Proof.
  intros Hv Hw. unfold PublishPkarr, bind, db_WriteRecord.
  by rewrite Hv, Hw.
Qed.

Lemma PublishPkarr_marshal_fails id request err db1 (s : Svc) :
  isValid request = None ->
  WriteRecord (db s) (toRecord request) = (None, db1) ->
  json_Marshal (response_of request) = Err err ->
  PublishPkarr id request s =
    (Returns (Some err),
     add_call (CallWriteRecord (toRecord request) None) (set_db db1 s)).
Proof.
  intros Hv Hw Hm. unfold PublishPkarr, bind, db_WriteRecord.
  by rewrite Hv, Hw, Hm.
Qed.

Lemma PublishPkarr_cache_fails id request err db1 b c1 (s : Svc) :
  isValid request = None ->
  WriteRecord (db s) (toRecord request) = (None, db1) ->
  json_Marshal (response_of request) = Ok b ->
  cache_Set (cache s) id b = (Some err, c1) ->
  PublishPkarr id request s =
    (Returns (Some err),
     add_call (CallCacheSet id b (Some err))
       (set_cache c1
          (add_call (CallWriteRecord (toRecord request) None) (set_db db1 s)))).
Proof.
  intros Hv Hw Hm Hc. unfold PublishPkarr, bind, db_WriteRecord, s_cache_Set.
  rewrite Hv, Hw, Hm. simpl. by rewrite Hc.
Qed.

Lemma PublishPkarr_succeeds id request db1 b c1 (s : Svc) :
  isValid request = None ->
  WriteRecord (db s) (toRecord request) = (None, db1) ->
  json_Marshal (response_of request) = Ok b ->
  cache_Set (cache s) id b = (None, c1) ->
  PublishPkarr id request s =
    (Returns None,
     {| db := db1; cache := c1; dht := dht s;
        goroutines := goroutines s ++ [put_of request]; log := log s;
        calls := calls s ++ [CallWriteRecord (toRecord request) None;
                             CallCacheSet id b None] |}).
Proof.
  intros Hv Hw Hm Hc.
  unfold PublishPkarr, bind, db_WriteRecord, s_cache_Set, go_Put, ret.
  rewrite Hv, Hw, Hm. simpl. rewrite Hc. simpl.
  unfold add_call, set_goroutines, set_cache, set_db. simpl.
  by rewrite <- app_assoc.
Qed.

(** A publish that returned no error went all the way. *)
Lemma PublishPkarr_success_inv id request (s s1 : Svc) :
  PublishPkarr id request s = (Returns None, s1) ->
  exists db1 b c1,
    isValid request = None /\
    WriteRecord (db s) (toRecord request) = (None, db1) /\
    json_Marshal (response_of request) = Ok b /\
    cache_Set (cache s) id b = (None, c1) /\
    s1 = {| db := db1; cache := c1; dht := dht s;
            goroutines := goroutines s ++ [put_of request]; log := log s;
            calls := calls s ++ [CallWriteRecord (toRecord request) None;
                                 CallCacheSet id b None] |}.
Proof.
  intros Hp.
  destruct (isValid request) as [e|] eqn:Hv.
  { rewrite (PublishPkarr_invalid _ _ e) in Hp by done. discriminate. }
  destruct (WriteRecord (db s) (toRecord request)) as [[e|] db1] eqn:Hw.
  { rewrite (PublishPkarr_write_fails _ _ e db1) in Hp by done. discriminate. }
  destruct (json_Marshal (response_of request)) as [b|e] eqn:Hm; cycle 1.
  { rewrite (PublishPkarr_marshal_fails _ _ e db1) in Hp by done. discriminate. }
  destruct (cache_Set (cache s) id b) as [[e|] c1] eqn:Hc.
  { rewrite (PublishPkarr_cache_fails _ _ e db1 b c1) in Hp by done. discriminate. }
  rewrite (PublishPkarr_succeeds _ _ db1 b c1) in Hp by done.
  exists db1, b, c1. by inversion Hp.
Qed.

(** [PublishPkarr] never panics. *)
Lemma PublishPkarr_returns id request (s : Svc) :
  exists err s1, PublishPkarr id request s = (Returns err, s1).
Proof.
  destruct (isValid request) as [e|] eqn:Hv.
  { eexists _, _. by apply PublishPkarr_invalid. }
  destruct (WriteRecord (db s) (toRecord request)) as [[e|] db1] eqn:Hw.
  { eexists _, _. by eapply PublishPkarr_write_fails. }
  destruct (json_Marshal (response_of request)) as [b|e] eqn:Hm; cycle 1.
  { eexists _, _. by eapply PublishPkarr_marshal_fails. }
  destruct (cache_Set (cache s) id b) as [[e|] c1] eqn:Hc.
  { eexists _, _. by eapply PublishPkarr_cache_fails. }
  eexists _, _. by eapply PublishPkarr_succeeds.
Qed.

(** C2. A request whose signature does not verify against (K, Seq, V) makes
    PublishPkarr return an error and leaves the whole service as it was:
    the durable store, the cache, the DHT, the goroutines started, and no
    call to a collaborator is made.  When the fields pass the validation and
    the payload encodes, the error is the one [isValid] makes for a bad
    signature. *)
Theorem publish_unverified_signature_writes_nothing id request (s : Svc) :
  ~ signature_verifies request ->
  exists err,
    PublishPkarr id request s = (Returns (Some err), s) /\
    (IsValidStruct request = None ->
     (exists bv, bencode_Marshal (req_V request) = Ok bv) ->
     err = ErrNew "signature is invalid").
Proof.
  intros Hn. destruct (isValid_unverified request Hn) as [err Hv].
  exists err. split; [by apply PublishPkarr_invalid|].
  intros Hs [bv Hbv]. unfold isValid in Hv. rewrite Hs, Hbv in Hv.
  destruct (bep44_Verify _ _ _ _ _) eqn:Hver; simpl in Hv.
  - destruct Hn. by exists bv.
  - by inversion Hv.
Qed.

(** C6. A valid publish whose store write succeeds and whose cache write
    fails returns the cache's error, although the store already holds the
    record: the store is in the state the successful write left, the DHT is
    untouched and no goroutine for the DHT announcement is started. *)
Theorem publish_cache_failure_after_durable_write id request err db1 b c1 (s : Svc) :
  isValid request = None ->
  WriteRecord (db s) (toRecord request) = (None, db1) ->
  json_Marshal (response_of request) = Ok b ->
  cache_Set (cache s) id b = (Some err, c1) ->
  exists s1,
    PublishPkarr id request s = (Returns (Some err), s1) /\
    db s1 = db1 /\
    goroutines s1 = goroutines s /\
    dht s1 = dht s /\
    calls s1 = calls s ++ [CallWriteRecord (toRecord request) None;
                           CallCacheSet id b (Some err)].
Proof.
  intros Hv Hw Hm Hc. eexists. split.
  - by eapply PublishPkarr_cache_fails.
  - simpl. by rewrite <- app_assoc.
Qed.

End publish.

(** ** The goroutines of PublishPkarr *)

Section background.
Context `{GoLibs}.
Context {DB C D : Type} `{DHT D}.

Abbreviation Svc := (PkarrService DB C D).

(** The goroutine returns nothing; a failed put leaves one log entry. *)
Lemma goroutine_body_spec p (s : Svc) :
  exists s1,
    goroutine_body p s = (Returns tt, s1) /\
    db s1 = db s /\ cache s1 = cache s /\ goroutines s1 = goroutines s /\
    dht s1 = (dht_Put (dht s) p).2 /\
    calls s1 = calls s ++ [CallDhtPut p (dht_Put (dht s) p).1] /\
    log s1 = log s ++
      match (dht_Put (dht s) p).1 with
      | Some err => [{| log_level := ErrorLevel; log_error := Some err;
                        log_format := "error from dht.Put"; log_args := [] |}]
      | None => []
      end.
Proof.
  unfold goroutine_body, bind, s_dht_Put, logf, ret.
  destruct (dht_Put (dht s) p) as [[err|] d1]; simpl; eexists; split; try done;
    simpl; by rewrite ?app_nil_r.
Qed.

Lemma go_step_frame (s s1 : Svc) :
  go_step s s1 -> db s1 = db s /\ cache s1 = cache s.
Proof.
  intros [s0 i p s' Hi Hb].
  destruct (goroutine_body_spec p (set_goroutines (delete i (goroutines s0)) s0))
    as (s2 & Hs2 & Hdb & Hc & _).
  rewrite Hs2 in Hb. inversion Hb; subst. done.
Qed.

Lemma go_steps_frame (s s1 : Svc) :
  rtc go_step s s1 -> db s1 = db s /\ cache s1 = cache s.
Proof.
  induction 1 as [|s0 s1 s2 Hstep _ [IHd IHc]]; [done|].
  apply go_step_frame in Hstep as [Hd Hc]. split; congruence.
Qed.

End background.

(** ** The resolve path *)

Section resolve.
Context `{GoLibs}.
Context {DB C D : Type} `{Storage DB} `{Cache C} `{DHT D}.

Abbreviation Svc := (PkarrService DB C D).

Lemma GetPkarr_cache_hit id b c1 resp (s : Svc) :
  cache_Get (cache s) id = (Ok b, c1) ->
  json_Unmarshal b = Ok resp ->
  GetPkarr id s =
    (Returns (Some resp, None),
     add_log (log_cache_hit id) (add_call (CallCacheGet id (Ok b)) (set_cache c1 s))).
Proof.
  intros Hg Hu. unfold GetPkarr, bind, s_cache_Get. rewrite Hg. simpl.
  by rewrite Hu.
Qed.

(** The storage fallback of [GetPkarr]: cache miss, then a failed DHT lookup,
    then whatever [ReadRecord] answers. *)
Lemma GetPkarr_fallback id e1 c1 e2 d1 (s : Svc) :
  cache_Get (cache s) id = (Err e1, c1) ->
  dht_GetFull (dht s) id = (Err e2, d1) ->
  GetPkarr id s =
    (logf WarnLevel (Some e2)
       "failed to get pkarr record[%s] from dht, attempting to resolve from storage"
       [AStr id] ;;
     '(record, err) <- db_ReadRecord id ;;
     match record, err with
     | Some record, None =>
         logf DebugLevel None "resolved pkarr record[%s] from storage" [AStr id] ;;
         r <- lift_exec (fromPkarrRecord record) ;;
         match r with
         | Err err => ret (None, Some err)
         | Ok resp =>
             err <- addRecordToCache id resp ;;
             match err with
             | Some err =>
                 logf ErrorLevel (Some err)
                   "failed to set pkarr record[%s] in cache" [AStr id] ;;
                 ret (Some resp, Some err)
             | None => ret (Some resp, None)
             end
         end
     | _, _ =>
         logf ErrorLevel err "failed to resolve pkarr record[%s] from storage"
           [AStr id] ;;
         ret (None, err)
     end)%go
      (add_call (CallDhtGetFull id (Err e2))
         (set_dht d1 (add_call (CallCacheGet id (Err e1)) (set_cache c1 s)))).
Proof.
  intros Hg Hd. unfold GetPkarr at 1. unfold bind at 1, s_cache_Get at 1.
  rewrite Hg. simpl. unfold bind at 1, s_dht_GetFull at 1. simpl.
  by rewrite Hd.
Qed.

(** The response made of a stored record: the payload decoded and the
    sequence number as stored. *)
Lemma fromPkarrRecord_fields record resp :
  fromPkarrRecord record = Returns (Ok resp) ->
  exists v, DecodeString (rec_V record) = Ok v /\
            resp_V resp = Some v /\ resp_Seq resp = rec_Seq record.
Proof.
  unfold fromPkarrRecord.
  destruct (DecodeString (rec_V record)) as [v|]; [|discriminate].
  destruct (DecodeString (rec_Sig record)) as [sig|]; [|discriminate].
  destruct (slice_to_array 64 sig); [|discriminate].
  intros [= <-]. by exists v.
Qed.

(** C10. When the cache misses, the DHT lookup fails and ReadRecord answers
    with a nil record and a nil error, GetPkarr returns a nil response and a
    nil error. *)
Theorem resolve_nil_record_nil_error id e1 c1 e2 d1 db1 (s : Svc) :
  cache_Get (cache s) id = (Err e1, c1) ->
  dht_GetFull (dht s) id = (Err e2, d1) ->
  ReadRecord (db s) id = ((None, None), db1) ->
  exists s1, GetPkarr id s = (Returns (None, None), s1).
Proof.
  intros Hg Hd Hr. rewrite (GetPkarr_fallback id e1 c1 e2 d1) by done.
  unfold bind, logf, db_ReadRecord. simpl. rewrite Hr. simpl. by eexists.
Qed.

(** C3. A record present only in the durable store (the cache misses, the DHT
    lookup fails, ReadRecord finds the record): GetPkarr returns the decoded
    record and sets it in the cache, and the next GetPkarr of the same id
    returns the same response from the cache alone: its only call is the
    cache lookup, and the DHT is not touched. *)
Theorem resolve_store_fallback_then_cache
    id e1 c1 e2 d1 record db1 resp b c2 (s : Svc) :
  json_roundtrips ->
  cache_reads_own_writes ->
  cache_Get (cache s) id = (Err e1, c1) ->
  dht_GetFull (dht s) id = (Err e2, d1) ->
  ReadRecord (db s) id = ((Some record, None), db1) ->
  fromPkarrRecord record = Returns (Ok resp) ->
  json_Marshal resp = Ok b ->
  cache_Set c1 id b = (None, c2) ->
  (exists v, DecodeString (rec_V record) = Ok v /\ resp_V resp = Some v) /\
  resp_Seq resp = rec_Seq record /\
  exists s1 s2,
    GetPkarr id s = (Returns (Some resp, None), s1) /\
    cache s1 = c2 /\
    calls s1 = calls s ++ [CallCacheGet id (Err e1); CallDhtGetFull id (Err e2);
                           CallReadRecord id (Some record) None;
                           CallCacheSet id b None] /\
    GetPkarr id s1 = (Returns (Some resp, None), s2) /\
    calls s2 = calls s1 ++ [CallCacheGet id (Ok b)] /\
    dht s2 = dht s1.
Proof.
  intros Hjson Hcache Hg Hd Hr Hf Hm Hs.
  destruct (fromPkarrRecord_fields record resp Hf) as (v & Hv & HV & Hseq).
  split; [by exists v|]. split; [done|].
  destruct (Hcache _ _ _ _ Hs) as [c3 Hg2].
  eexists _, _. split.
  { rewrite (GetPkarr_fallback id e1 c1 e2 d1) by done.
    unfold bind, logf, db_ReadRecord, lift_exec, addRecordToCache. simpl.
    rewrite Hr. simpl. rewrite Hf, Hm. unfold bind, s_cache_Set. simpl.
    rewrite Hs. simpl. reflexivity. }
  split; [done|]. split.
  { simpl. by rewrite <- !app_assoc. }
  split.
  { apply GetPkarr_cache_hit with (c1 := c3); [done|]. by apply Hjson. }
  done.
Qed.

(** C1. After a successful PublishPkarr of a request that passes the field
    validation and whose signature verifies, GetPkarr of the same id returns
    a response with the V, Seq and Sig of the request, whether or not the
    goroutines started so far have run in between. *)
Theorem publish_then_resolve_roundtrip id request (s s1 s2 : Svc) :
  json_roundtrips ->
  cache_reads_own_writes ->
  IsValidStruct request = None ->
  signature_verifies request ->
  PublishPkarr id request s = (Returns None, s1) ->
  rtc go_step s1 s2 ->
  exists resp s3,
    GetPkarr id s2 = (Returns (Some resp, None), s3) /\
    resp_V resp = req_V request /\
    resp_Seq resp = req_Seq request /\
    resp_Sig resp = req_Sig request.
Proof.
  intros Hjson Hcache _ _ Hp Hsteps.
  apply PublishPkarr_success_inv in Hp as (db1 & b & c1 & _ & _ & Hm & Hs & ->).
  apply go_steps_frame in Hsteps as [_ Hc]. simpl in Hc.
  destruct (Hcache _ _ _ _ Hs) as [c3 Hg]. rewrite <- Hc in Hg.
  exists (response_of request). eexists. split.
  - apply GetPkarr_cache_hit with (c1 := c3); [done|]. by apply Hjson.
  - done.
Qed.

End resolve.

(** ** The republish tick *)

Section republish.
Context `{GoLibs}.
Context {DB C D : Type} `{Storage DB} `{DHT D}.

Abbreviation Svc := (PkarrService DB C D).

(** The loop, for any records: it visits them in order until the end, or until
    one makes the conversion panic; each visit is a failed conversion or a DHT
    put; [errCnt] grows by the number of failed visits. *)
Lemma republish_loop_spec records errCnt (s : Svc) :
  exists visits r s1,
    republish_loop records errCnt s = (r, s1) /\
    db s1 = db s /\ cache s1 = cache s /\ goroutines s1 = goroutines s /\
    calls s1 = calls s ++ omap visit_call visits /\
    log s1 = log s ++ omap visit_log visits /\
    Forall2 visit_of (take (length visits) records) visits /\
    match r with
    | Returns n =>
        length visits = length records /\ n = errCnt + failed_count visits
    | Panics =>
        exists record, records !! length visits = Some record /\
                       recordToBEP44Put record = Panics
    end.
Proof.
  revert errCnt s. induction records as [|record rest IH]; intros errCnt s.
  { exists [], (Returns errCnt), s. simpl. rewrite !app_nil_r.
    unfold failed_count. simpl. repeat split; try done; try lia. }
  simpl. unfold bind at 1, lift_exec at 1.
  destruct (recordToBEP44Put record) as [[put|err]|] eqn:Hconv.
  - (* the conversion succeeds: a put *)
    unfold bind at 1, s_dht_Put at 1.
    destruct (dht_Put (dht s) put) as [[err|] d1] eqn:Hput.
    + unfold bind at 1, logf at 1. simpl.
      match goal with |- context [republish_loop rest ?n ?s0] =>
        destruct (IH n s0) as (visits & r & s1 & -> & Hdb & Hc & Hg & Hcalls & Hlog & Hv & Hr)
      end.
      exists (VisitPut put (Some err) :: visits), r, s1. simpl in *.
      rewrite Hcalls, Hlog, <- !app_assoc. repeat split; try done.
      { by constructor. }
      destruct r; [|done]. destruct Hr as [-> ->]. split; [done|].
      unfold failed_count. rewrite filter_cons. simpl.
      destruct (decide (true = true)); [|done]. simpl length. lia.
    + simpl.
      match goal with |- context [republish_loop rest ?n ?s0] =>
        destruct (IH n s0) as (visits & r & s1 & -> & Hdb & Hc & Hg & Hcalls & Hlog & Hv & Hr)
      end.
      exists (VisitPut put None :: visits), r, s1. simpl in *.
      rewrite Hcalls, Hlog, <- !app_assoc. repeat split; try done.
      { by constructor. }
      destruct r; [|done]. destruct Hr as [-> ->]. split; [done|].
      unfold failed_count. rewrite filter_cons. simpl.
      destruct (decide (false = true)); [done|]. lia.
  - (* the conversion returns an error: no put *)
    unfold bind at 1, logf at 1. simpl.
    match goal with |- context [republish_loop rest ?n ?s0] =>
      destruct (IH n s0) as (visits & r & s1 & -> & Hdb & Hc & Hg & Hcalls & Hlog & Hv & Hr)
    end.
    exists (VisitConvertFailed err :: visits), r, s1. simpl in *.
    rewrite Hcalls, Hlog, <- !app_assoc. repeat split; try done.
    { by constructor. }
    destruct r; [|done]. destruct Hr as [-> ->]. split; [done|].
    unfold failed_count. rewrite filter_cons. simpl.
    destruct (decide (true = true)); [|done]. simpl length. lia.
  - (* the conversion panics: the tick ends here *)
    exists [], Panics, s. simpl. rewrite !app_nil_r. repeat split; try done.
    by exists record.
Qed.

(** *** Stored records *)

Lemma slice_to_array_vec n (v : vec byte n) :
  slice_to_array n (vec_to_list v) = Returns v.
Proof. induction v as [|b n v IH]; simpl; [done|]. by rewrite IH. Qed.

Lemma slice_to_array_take n (l : bytes) :
  (n <= length l)%nat ->
  exists v, slice_to_array n l = Returns v /\ vec_to_list v = take n l.
Proof.
  revert l. induction n as [|n IH]; intros l Hl; simpl.
  { by exists [#]. }
  destruct l as [|b l]; simpl in Hl; [lia|].
  destruct (IH l) as (v & -> & Hv); [lia|].
  exists (b ::: v). simpl. by rewrite Hv.
Qed.

Lemma slice_to_array_short n (l : bytes) :
  (length l < n)%nat -> slice_to_array n l = Panics.
Proof.
  revert l. induction n as [|n IH]; intros l Hl; simpl; [lia|].
  destruct l as [|b l]; [done|]. simpl in Hl. rewrite IH; [done|lia].
Qed.

Arguments slice_to_array : simpl never.

Lemma well_formed_put record :
  well_formed record ->
  exists p, recordToBEP44Put record = Returns (Ok p).
Proof.
  intros (v & k & sig & Hv & Hk & Hsig & Hlk & Hls).
  unfold recordToBEP44Put. rewrite Hv, Hk, Hsig.
  destruct (slice_to_array_take 32 k Hlk) as (ka & -> & _).
  destruct (slice_to_array_take 64 sig Hls) as (sa & -> & _).
  by eexists.
Qed.

(** The put made for a stored record carries the stored fields, decoded, and
    nothing else. *)
Lemma recordToBEP44Put_fields record p :
  recordToBEP44Put record = Returns (Ok p) ->
  exists v k sig,
    DecodeString (rec_V record) = Ok v /\
    DecodeString (rec_K record) = Ok k /\
    DecodeString (rec_Sig record) = Ok sig /\
    put_V p = Some v /\
    vec_to_list (put_K p) = take 32 k /\
    vec_to_list (put_Sig p) = take 64 sig /\
    put_Seq p = rec_Seq record.
Proof.
  unfold recordToBEP44Put.
  destruct (DecodeString (rec_V record)) as [v|] eqn:Hv; [|discriminate].
  destruct (DecodeString (rec_K record)) as [k|] eqn:Hk; [|discriminate].
  destruct (DecodeString (rec_Sig record)) as [sig|] eqn:Hsig; [|discriminate].
  destruct (decide (32 <= length k)%nat) as [Hlk|Hlk]; cycle 1.
  { rewrite (slice_to_array_short 32 k) by lia. discriminate. }
  destruct (slice_to_array_take 32 k Hlk) as (ka & -> & Hka).
  destruct (decide (64 <= length sig)%nat) as [Hls|Hls]; cycle 1.
  { rewrite (slice_to_array_short 64 sig) by lia. discriminate. }
  destruct (slice_to_array_take 64 sig Hls) as (sa & -> & Hsa).
  intros [= <-]. by exists v, k, sig.
Qed.

Lemma toRecord_put request :
  base64_roundtrips ->
  recordToBEP44Put (toRecord request) =
    Returns (Ok {| put_V := Some (slice_data (req_V request));
                   put_K := req_K request; put_Sig := req_Sig request;
                   put_Seq := req_Seq request |}).
Proof.
  intros Hb64. unfold recordToBEP44Put, toRecord. simpl.
  rewrite !Hb64. by rewrite !slice_to_array_vec.
Qed.

Lemma toRecord_well_formed request :
  base64_roundtrips -> well_formed (toRecord request).
Proof.
  intros Hb64. unfold well_formed, toRecord. simpl.
  eexists _, _, _. rewrite !Hb64. repeat split; by rewrite length_vec_to_list.
Qed.

(** *** A tick over well-formed records *)

Lemma visits_of_well_formed records visits :
  Forall well_formed records ->
  Forall2 visit_of records visits ->
  exists attempts,
    visits = map attempt_visit attempts /\
    Forall2 (fun record a => recordToBEP44Put record = Returns (Ok a.1))
      records attempts.
Proof.
  intros Hwf Hv. induction Hv as [|record v records visits Hrv _ IH].
  { by exists []. }
  apply Forall_cons in Hwf as [Hw Hwf].
  destruct (IH Hwf) as (attempts & -> & Hatt).
  destruct (well_formed_put record Hw) as [p Hp].
  destruct v as [err|q err]; simpl in Hrv; [congruence|].
  exists ((q, err) :: attempts). split; [done|]. by constructor.
Qed.

Lemma attempts_calls attempts :
  omap visit_call (map attempt_visit attempts) = map attempt_call attempts.
Proof. induction attempts as [|[p e] l IH]; csimpl; [done|]. by rewrite IH. Qed.

Lemma attempts_log attempts :
  omap visit_log (map attempt_visit attempts) = map log_put_failed (failures attempts).
Proof.
  unfold failures.
  induction attempts as [|[p [e|]] l IH]; csimpl; [done|..]; by rewrite IH.
Qed.

Lemma attempts_failed_count attempts :
  failed_count (map attempt_visit attempts) = Z.of_nat (length (failures attempts)).
Proof.
  unfold failed_count, failures. f_equal.
  induction attempts as [|[p [e|]] l IH]; csimpl; [done|..].
  - by rewrite IH.
  - rewrite filter_cons. simpl. by destruct (decide (false = true)).
Qed.

(** C8. For the N well-formed records ListRecords returns, a republish tick
    makes one DHT put per record, in the order of the list and to the last
    one, whatever each put answers; it logs one entry per failed put and a
    summary with N minus the number of failed puts out of N; the put of a
    record carries the stored signature decoded, which for a record made by
    [toRecord] is the signature of the request, byte for byte. *)
Theorem republish_attempts_every_record records db1 (s : Svc) :
  base64_roundtrips ->
  ListRecords (db s) = (Ok records, db1) ->
  Forall well_formed records ->
  exists attempts s1,
    republish s = (Returns tt, s1) /\
    length attempts = length records /\
    calls s1 = calls s ++ CallListRecords (Ok records) :: map attempt_call attempts /\
    Forall2 (fun record a =>
               recordToBEP44Put record = Returns (Ok a.1) /\
               (forall sig, DecodeString (rec_Sig record) = Ok sig ->
                            vec_to_list (put_Sig a.1) = take 64 sig) /\
               (forall request, record = toRecord request ->
                                put_Sig a.1 = req_Sig request /\
                                put_K a.1 = req_K request /\
                                put_Seq a.1 = req_Seq request /\
                                put_V a.1 = Some (slice_data (req_V request))))
      records attempts /\
    log s1 = log s ++
      match records with
      | [] =>
          [{| log_level := InfoLevel; log_error := None;
              log_format := "No records to republish"; log_args := [] |}]
      | _ =>
          log_republishing (length records) ::
          map log_put_failed (failures attempts) ++
          [log_complete
             (Z.of_nat (length records) - Z.of_nat (length (failures attempts)))
             (Z.of_nat (length records))]
      end.
Proof.
  intros Hb64 Hlist Hwf. unfold republish, bind at 1, db_ListRecords at 1.
  rewrite Hlist. simpl.
  destruct (decide (length records = 0%nat)) as [Hz|Hnz].
  { destruct records; [|done]. exists []. eexists. simpl.
    repeat split; try done. }
  unfold bind at 1, logf at 1. simpl. unfold bind at 1.
  match goal with |- context [republish_loop records 0 ?s0] =>
    destruct (republish_loop_spec records 0 s0)
      as (visits & r & s1 & -> & _ & _ & _ & Hcalls & Hlog & Hv & Hr)
  end.
  assert (length visits = length records) as Hlen.
  { destruct r as [n|]; [by destruct Hr|].
    destruct Hr as (record & Hi & Hpanic).
    assert (well_formed record) as Hw.
    { eapply Forall_forall; [exact Hwf|]. by eapply list_elem_of_lookup_2. }
    destruct (well_formed_put record Hw) as [p Hp]. congruence. }
  rewrite Hlen, firstn_all in Hv.
  destruct (visits_of_well_formed records visits Hwf Hv) as (attempts & -> & Hatt).
  destruct r as [n|]; cycle 1.
  { destruct Hr as (record & Hi & Hpanic).
    apply lookup_lt_Some in Hi. lia. }
  destruct Hr as [_ ->].
  rewrite attempts_calls in Hcalls. rewrite attempts_log in Hlog.
  rewrite attempts_failed_count.
  exists attempts. eexists. split; [reflexivity|].
  rewrite length_map in Hlen.
  split; [done|]. split.
  { simpl. rewrite Hcalls. simpl. by rewrite <- app_assoc. }
  split.
  { eapply Forall2_impl; [exact Hatt|]. intros record [p e] Hp. simpl in *.
    split; [done|]. split.
    - intros sig Hsig.
      destruct (recordToBEP44Put_fields record p Hp)
        as (v & k & sig' & _ & _ & Hsig' & _ & _ & Hs & _).
      congruence.
    - intros request ->. rewrite (toRecord_put request Hb64) in Hp.
      by inversion Hp. }
  simpl. rewrite Hlog. simpl.
  rewrite Z.add_0_l. destruct records; [done|]. by rewrite <- !app_assoc.
Qed.

End republish.

(** ** DHT put failures stay in the log *)

Section distribution.
Context `{GoLibs}.
Context {DB C D : Type} `{Storage DB} `{Cache C} `{DHT D}.

Abbreviation Svc := (PkarrService DB C D).

(** [PublishPkarr] does not touch the DHT, and what it returns is a function of
    the request, the store and the cache: the DHT may be any state of any
    implementation. *)
Lemma PublishPkarr_ignores_dht {D'} id request (s : Svc) (d' : D') g' l' k' :
  dht (PublishPkarr id request s).2 = dht s /\
  (PublishPkarr id request
     {| db := db s; cache := cache s; dht := d'; goroutines := g'; log := l';
        calls := k' |}).1 = (PublishPkarr id request s).1.
Proof.
  unfold PublishPkarr, bind, ret, db_WriteRecord, s_cache_Set, go_Put.
  destruct (isValid request); [done|]. simpl.
  destruct (WriteRecord (db s) (toRecord request)) as [[e|] db1]; [done|]. simpl.
  destruct (json_Marshal (response_of request)) as [b|e]; [|done]. simpl.
  by destruct (cache_Set (cache s) id b) as [[e|] c1].
Qed.

(** In a tick, every put the DHT refused has its entry in the log. *)
Lemma republish_logs_put_failures (s : Svc) :
  exists r s1 new_calls new_log,
    republish s = (r, s1) /\
    cache s1 = cache s /\ goroutines s1 = goroutines s /\
    calls s1 = calls s ++ new_calls /\
    log s1 = log s ++ new_log /\
    forall p err, CallDhtPut p (Some err) ∈ new_calls -> log_put_failed err ∈ new_log.
Proof.
  unfold republish, bind at 1, db_ListRecords at 1.
  destruct (ListRecords (db s)) as [[records|e] db1]; simpl.
  - destruct (decide (length records = 0%nat)) as [Hz|Hnz].
    { eexists _, _, [_], [_]. repeat split; try done.
      intros p err Hin. apply list_elem_of_singleton in Hin. discriminate. }
    unfold bind at 1, logf at 1. simpl. unfold bind at 1.
    match goal with |- context [republish_loop records 0 ?s0] =>
      destruct (republish_loop_spec records 0 s0)
        as (visits & r & s1 & -> & _ & Hc & Hg & Hcalls & Hlog & _ & _)
    end.
    assert (forall p err, CallDhtPut p (Some err) ∈ omap visit_call visits ->
                          log_put_failed err ∈ omap visit_log visits) as Hin.
    { intros p err Hin. apply list_elem_of_omap in Hin as (v & Hv & Hcall).
      apply list_elem_of_omap. exists v. split; [done|].
      destruct v as [e|q [e|]]; simpl in *; congruence. }
    simpl in *.
    destruct r as [n|].
    + eexists (Returns tt), _, (_ :: omap visit_call visits),
        (_ :: omap visit_log visits ++ [_]).
      split; [reflexivity|]. simpl. rewrite Hcalls, Hlog, Hc, Hg, <- !app_assoc.
      repeat split; try done.
      intros p err Hp. apply elem_of_cons in Hp as [Hp|Hp]; [discriminate|].
      apply elem_of_cons. right. apply elem_of_app. left. by apply (Hin p).
    + eexists Panics, _, (_ :: omap visit_call visits), (_ :: omap visit_log visits).
      split; [reflexivity|]. rewrite Hcalls, Hlog, Hc, Hg, <- !app_assoc.
      repeat split; try done.
      intros p err Hp. apply elem_of_cons in Hp as [Hp|Hp]; [discriminate|].
      apply elem_of_cons. right. by apply (Hin p).
  - eexists _, _, [_], [_]. repeat split; try done.
    intros p err Hin. apply list_elem_of_singleton in Hin. discriminate.
Qed.

(** C7. A DHT put failure is not returned to any caller.  PublishPkarr returns
    the same value whatever the DHT is and does not touch it; its goroutine
    returns nothing and only logs the error of a failed put; a republish tick
    returns nothing, and every put the DHT refused in it is in the log. *)
Theorem dht_put_failure_only_logged {D'} id request p (s : Svc) (d' : D') g' l' k' :
  (dht (PublishPkarr id request s).2 = dht s /\
   (PublishPkarr id request
      {| db := db s; cache := cache s; dht := d'; goroutines := g'; log := l';
         calls := k' |}).1 = (PublishPkarr id request s).1) /\
  (exists s1,
     goroutine_body p s = (Returns tt, s1) /\
     db s1 = db s /\ cache s1 = cache s /\ goroutines s1 = goroutines s /\
     calls s1 = calls s ++ [CallDhtPut p (dht_Put (dht s) p).1] /\
     log s1 = log s ++
       match (dht_Put (dht s) p).1 with
       | Some err => [{| log_level := ErrorLevel; log_error := Some err;
                         log_format := "error from dht.Put"; log_args := [] |}]
       | None => []
       end) /\
  (exists (r : exec unit) s1 new_calls new_log,
     republish s = (r, s1) /\
     cache s1 = cache s /\ goroutines s1 = goroutines s /\
     calls s1 = calls s ++ new_calls /\
     log s1 = log s ++ new_log /\
     forall q err, CallDhtPut q (Some err) ∈ new_calls ->
                   log_put_failed err ∈ new_log).
Proof.
  split; [apply PublishPkarr_ignores_dht|]. split.
  - destruct (goroutine_body_spec p s) as (s1 & Hb & Hdb & Hc & Hg & _ & Hcalls & Hlog).
    by exists s1.
  - apply republish_logs_put_failures.
Qed.

End distribution.

(** ** Writes of package postgres *)

Section inserts.
Import postgres.

Lemma find_app_l {A} (f : A -> bool) (l1 l2 : list A) x :
  List.find f l1 = Some x -> List.find f (l1 ++ l2) = Some x.
Proof.
  induction l1 as [|a l1 IH]; simpl; [discriminate|].
  destruct (f a); [done|]. apply IH.
Qed.

Lemma find_app_r {A} (f : A -> bool) (l1 l2 : list A) :
  List.find f l1 = None -> List.find f (l1 ++ l2) = List.find f l2.
Proof.
  induction l1 as [|a l1 IH]; simpl; [done|].
  destruct (f a); [discriminate|]. apply IH.
Qed.

Lemma has_key_row_of arg : has_key (arg_Key arg) (row_of arg) = true.
Proof. unfold has_key. by apply bool_decide_eq_true. Qed.

(** A write never removes or changes a row. *)
Lemma WriteRecord_keeps_rows q arg err q1 :
  postgres.WriteRecord q arg = (err, q1) ->
  pkarr_records q `prefix_of` pkarr_records q1.
Proof.
  unfold postgres.WriteRecord. destruct (down q); [by intros [= _ <-]|].
  destruct (key_unique q && _); intros [= _ <-]; [done|].
  simpl. by apply prefix_app_r.
Qed.

(** On a table without the uniqueness constraint two writes of the same
    arguments leave two rows. *)
Lemma WriteRecord_twice_plain q arg :
  down q = None -> key_unique q = false ->
  exists q1 q2,
    postgres.WriteRecord q arg = (None, q1) /\
    postgres.WriteRecord q1 arg = (None, q2) /\
    pkarr_records q1 = pkarr_records q ++ [row_of arg] /\
    pkarr_records q2 = pkarr_records q ++ [row_of arg; row_of arg] /\
    postgres.ReadRecord q2 (arg_Key arg) = postgres.ReadRecord q1 (arg_Key arg) /\
    (postgres.ReadRecord q1 (arg_Key arg)).2 = None.
Proof.
  intros Hd Hu.
  assert (forall q0, down q0 = None -> key_unique q0 = false ->
            postgres.WriteRecord q0 arg =
              (None, {| pkarr_records := pkarr_records q0 ++ [row_of arg];
                        key_unique := key_unique q0; down := down q0 |})) as Hw.
  { intros q0 Hd0 Hu0. unfold postgres.WriteRecord. by rewrite Hd0, Hu0. }
  assert (forall rows,
            (List.find (has_key (arg_Key arg)) (pkarr_records q ++ row_of arg :: rows)) =
            Some (default (row_of arg)
                    (List.find (has_key (arg_Key arg)) (pkarr_records q)))) as Hfind.
  { intros rows.
    destruct (List.find (has_key (arg_Key arg)) (pkarr_records q)) as [row|] eqn:Hf.
    - by rewrite (find_app_l _ _ _ row).
    - rewrite find_app_r by done. simpl. by rewrite has_key_row_of. }
  eexists _, _. split; [by apply Hw|]. split; [by apply Hw|].
  split; [done|]. split; [simpl; by rewrite <- app_assoc|].
  unfold postgres.ReadRecord. simpl. rewrite Hd, <- app_assoc. simpl.
  by rewrite !Hfind.
Qed.

(** With the constraint the second write is refused. *)
Lemma WriteRecord_twice_unique q arg q1 :
  key_unique q = true ->
  postgres.WriteRecord q arg = (None, q1) ->
  postgres.WriteRecord q1 arg = (Some ErrUniqueViolation, q1).
Proof.
  intros Hu. unfold postgres.WriteRecord.
  destruct (down q) eqn:Hd; [discriminate|]. rewrite Hu. simpl.
  destruct (existsb _ _); [discriminate|]. intros [= <-]. simpl.
  rewrite existsb_app. simpl. rewrite has_key_row_of.
  by rewrite orb_true_r.
Qed.

End inserts.

(** ** Publishing again *)

Section again.
Context `{GoLibs}.
Context {DB C D : Type} `{Storage DB} `{Cache C} `{DHT D}.

Abbreviation Svc := (PkarrService DB C D).

(** A request with a zero field is refused before anything else is looked at. *)
Lemma PublishPkarr_zero_Seq id request (s : Svc) :
  req_Seq request = 0 ->
  exists fields,
    "Seq" ∈ fields /\
    PublishPkarr id request s = (Returns (Some (ErrValidation fields)), s).
Proof.
  intros Hz.
  assert (exists fields, "Seq" ∈ fields /\
            IsValidStruct request = Some (ErrValidation fields)) as (fields & Hin & Hv).
  { unfold IsValidStruct.
    assert ("Seq" ∈ required_failures request) as Hin.
    { unfold required_failures. rewrite !elem_of_app. do 3 right.
      rewrite decide_True by done. by apply list_elem_of_singleton. }
    destruct (required_failures request) as [|f l] eqn:Hf.
    - by apply elem_of_nil in Hin.
    - by exists (f :: l). }
  exists fields. split; [done|]. apply PublishPkarr_invalid.
  unfold isValid. by rewrite Hv.
Qed.

Lemma publish_then_GetPkarr id request db1 b c1 (s : Svc) :
  json_roundtrips -> cache_reads_own_writes ->
  isValid request = None ->
  WriteRecord (db s) (toRecord request) = (None, db1) ->
  json_Marshal (response_of request) = Ok b ->
  cache_Set (cache s) id b = (None, c1) ->
  exists s1 s2,
    PublishPkarr id request s = (Returns None, s1) /\
    db s1 = db1 /\
    calls s1 = calls s ++ [CallWriteRecord (toRecord request) None;
                           CallCacheSet id b None] /\
    GetPkarr id s1 = (Returns (Some (response_of request), None), s2).
Proof.
  intros Hjson Hcache Hv Hw Hm Hs.
  destruct (Hcache _ _ _ _ Hs) as [c2 Hg].
  eexists _, _. split; [by eapply PublishPkarr_succeeds|].
  split; [done|]. split; [done|].
  apply GetPkarr_cache_hit with (c1 := c2); [done|]. by apply Hjson.
Qed.

(** C4, amended.  Publishing the same valid request twice hands the same
    record to WriteRecord and the same bytes to the cache both times, and the
    id resolves to the same response after either.  The WriteRecord of
    package postgres is an INSERT and overwrites nothing: a write never
    changes or removes a row; on a table without a uniqueness constraint on
    the key a second write of the same arguments succeeds and leaves two rows
    of identical content, from which ReadRecord reads the same row as after
    the first; with the constraint the second write is refused. *)
Theorem publish_twice_inserts_twice id request (s s1 s2 : Svc) :
  json_roundtrips ->
  cache_reads_own_writes ->
  PublishPkarr id request s = (Returns None, s1) ->
  PublishPkarr id request s1 = (Returns None, s2) ->
  (exists b s3 s4,
     calls s1 = calls s ++ [CallWriteRecord (toRecord request) None;
                            CallCacheSet id b None] /\
     calls s2 = calls s1 ++ [CallWriteRecord (toRecord request) None;
                             CallCacheSet id b None] /\
     GetPkarr id s1 = (Returns (Some (response_of request), None), s3) /\
     GetPkarr id s2 = (Returns (Some (response_of request), None), s4)) /\
  (forall q arg,
     postgres.down q = None ->
     postgres.pkarr_records q `prefix_of`
       postgres.pkarr_records (postgres.WriteRecord q arg).2 /\
     (postgres.key_unique q = false ->
      exists q1 q2,
        postgres.WriteRecord q arg = (None, q1) /\
        postgres.WriteRecord q1 arg = (None, q2) /\
        postgres.pkarr_records q2 =
          postgres.pkarr_records q ++ [postgres.row_of arg; postgres.row_of arg] /\
        postgres.ReadRecord q2 (postgres.arg_Key arg) =
          postgres.ReadRecord q1 (postgres.arg_Key arg) /\
        (postgres.ReadRecord q1 (postgres.arg_Key arg)).2 = None) /\
     (postgres.key_unique q = true ->
      forall q1, postgres.WriteRecord q arg = (None, q1) ->
                 postgres.WriteRecord q1 arg = (Some postgres.ErrUniqueViolation, q1))).
Proof.
  intros Hjson Hcache Hp1 Hp2. split.
  - apply PublishPkarr_success_inv in Hp1 as (db1 & b & c1 & Hv & Hw1 & Hm & Hs1 & ->).
    apply PublishPkarr_success_inv in Hp2 as (db2 & b' & c2 & _ & Hw2 & Hm' & Hs2 & ->).
    assert (b' = b) as -> by congruence. simpl in *.
    destruct (Hcache _ _ _ _ Hs1) as [c3 Hg1].
    destruct (Hcache _ _ _ _ Hs2) as [c4 Hg2].
    exists b. eexists _, _. split; [done|]. split; [done|]. split.
    + apply GetPkarr_cache_hit with (c1 := c3); [done|]. by apply Hjson.
    + apply GetPkarr_cache_hit with (c1 := c4); [done|]. by apply Hjson.
  - intros q arg Hd. split.
    { destruct (postgres.WriteRecord q arg) as [err q1] eqn:Hw.
      by apply WriteRecord_keeps_rows in Hw. }
    split.
    + intros Hu.
      destruct (WriteRecord_twice_plain q arg Hd Hu)
        as (q1 & q2 & Hw1 & Hw2 & _ & Hrows & Hread & Hfound).
      by exists q1, q2.
    + intros Hu q1 Hw. by apply WriteRecord_twice_unique with (q := q).
Qed.

(** C5, amended.  After a successful publish of a request, a publish of a
    request with a lower Seq for the same id, valid (so of a Seq other than
    zero) and accepted by the store and the cache, succeeds: PublishPkarr
    hands the record to WriteRecord and the response to the cache without
    reading the store or comparing sequence numbers, and the id then resolves
    to the request with the lower Seq. *)
Theorem publish_lower_seq_replaces id request1 request2 db2 b c2 (s s1 : Svc) :
  json_roundtrips ->
  cache_reads_own_writes ->
  PublishPkarr id request1 s = (Returns None, s1) ->
  req_Seq request2 < req_Seq request1 ->
  isValid request2 = None ->
  WriteRecord (db s1) (toRecord request2) = (None, db2) ->
  json_Marshal (response_of request2) = Ok b ->
  cache_Set (cache s1) id b = (None, c2) ->
  req_Seq request2 <> 0 /\
  exists s2 s3,
    PublishPkarr id request2 s1 = (Returns None, s2) /\
    db s2 = db2 /\
    calls s2 = calls s1 ++ [CallWriteRecord (toRecord request2) None;
                            CallCacheSet id b None] /\
    GetPkarr id s2 = (Returns (Some (response_of request2), None), s3).
Proof.
  intros Hjson Hcache _ _ Hv Hw Hm Hs. split.
  - apply isValid_None in Hv as [Hv _].
    apply IsValidStruct_None in Hv as (_ & _ & _ & Hseq). exact Hseq.
  - by apply (publish_then_GetPkarr id request2 db2 b c2).
Qed.

(** C9, amended.  The service puts no bound of its own on V: [recordSizeLimit]
    is only the MaxEntrySize given to the cache.  For a valid request whose V
    is longer than 1000 bytes and whose record the store takes, PublishPkarr
    returns what the cache answers to the serialized response, after the
    durable write: an error when the cache refuses entries above the limit,
    success when it accepts the entry. *)
Theorem publish_oversize_payload_is_up_to_the_cache cfg id request db1 b (s : Svc) :
  isValid request = None ->
  recordSizeLimit < Z.of_nat (length (slice_data (req_V request))) ->
  WriteRecord (db s) (toRecord request) = (None, db1) ->
  json_Marshal (response_of request) = Ok b ->
  MaxEntrySize (cacheConfig cfg) = recordSizeLimit /\
  (PublishPkarr id request s).1 = Returns (cache_Set (cache s) id b).1 /\
  db (PublishPkarr id request s).2 = db1 /\
  (cache_enforces_entry_limit ->
   (length (slice_data (req_V request)) <= length b)%nat ->
   exists err, (PublishPkarr id request s).1 = Returns (Some err)).
Proof.
  intros Hv Hlen Hw Hm. split; [done|].
  assert ((PublishPkarr id request s).1 = Returns (cache_Set (cache s) id b).1 /\
          db (PublishPkarr id request s).2 = db1) as [Hres Hdb].
  { destruct (cache_Set (cache s) id b) as [[err|] c1] eqn:Hs.
    - rewrite (PublishPkarr_cache_fails id request err db1 b c1) by done. done.
    - rewrite (PublishPkarr_succeeds id request db1 b c1) by done. done. }
  split; [done|]. split; [done|].
  intros Hlimit Hb. rewrite Hres.
  destruct (Hlimit (cache s) id b) as (err & c1 & ->); [lia|]. by exists err.
Qed.

End again.

(** ** The stand-ins keep the contracts *)

Lemma slice_to_array_app n (v : vec byte n) (rest : bytes) :
  slice_to_array n (vec_to_list v ++ rest) = Returns v.
Proof.
  induction v as [|b n v IH]; [done|].
  cbn [vec_to_list app]. unfold slice_to_array; fold slice_to_array. by rewrite IH.
Qed.

Lemma count_ones_replicate n (rest : bytes) :
  count_ones (replicate n x01 ++ x00 :: rest) = (n, x00 :: rest).
Proof. induction n as [|n IH]; simpl; [done|]. by rewrite IH. Qed.

Lemma standin_json_roundtrips : @json_roundtrips standin_libs.
Proof.
  intros [v seq sig] b [= <-]. simpl. unfold standin_Unmarshal.
  rewrite slice_to_array_app.
  rewrite drop_app_length' by (by rewrite length_vec_to_list).
  rewrite <- app_assoc. cbn [app]. rewrite count_ones_replicate.
  destruct (decide (x00 = x00)); [|done].
  assert ((if decide ((if decide (seq < 0) then x01 else x00) = x01)
           then - Z.of_nat (Z.abs_nat seq) else Z.of_nat (Z.abs_nat seq)) = seq) as ->.
  { destruct (decide (seq < 0)); simpl; lia. }
  by destruct v as [l|].
Qed.

Lemma standin_base64_roundtrips : @base64_roundtrips standin_libs.
Proof. intros b. simpl. by rewrite String.list_byte_of_string_of_list_byte. Qed.

Lemma MemCache_reads_own_writes : @cache_reads_own_writes MemCache MemCache_Cache.
Proof.
  intros c id b c1. simpl.
  destruct (mc_shard_bytes c) as [m|].
  - destruct (decide (m < entry_bytes id b)); [discriminate|].
    intros [= <-]. simpl. rewrite lookup_insert_eq. by eexists.
  - intros [= <-]. simpl. rewrite lookup_insert_eq. by eexists.
Qed.

(** ** The service at work *)

Section examples.
#[local] Existing Instance standin_libs.
#[local] Existing Instance MemCache_Cache.
#[local] Existing Instance MemDHT_DHT.

Abbreviation Svc := (PkarrService postgres.Queries MemCache MemDHT).

Lemma publish_then_resolve_roundtrip_witness :
  exists resp s3,
    GetPkarr "abc" announced = (Returns (Some resp, None), s3) /\
    resp_V resp = Some hello /\
    resp_Seq resp = 1 /\
    resp_Sig resp = req_Sig request_hello.
Proof.
  apply (publish_then_resolve_roundtrip "abc" request_hello
           (sample_service empty_table) published announced).
  - apply standin_json_roundtrips.
  - apply MemCache_reads_own_writes.
  - vm_compute. reflexivity.
  - exists (bencode_bytes hello). split; vm_compute; reflexivity.
  - vm_compute. reflexivity.
  - apply rtc_once. apply (go_step_run published 0 (put_of request_hello)).
    + vm_compute. reflexivity.
    + vm_compute. reflexivity.
Defined.

Lemma publish_unverified_signature_writes_nothing_witness :
  exists err,
    PublishPkarr "abc" forged (sample_service empty_table) =
      (Returns (Some err), sample_service empty_table) /\
    (IsValidStruct forged = None ->
     (exists bv, bencode_Marshal (req_V forged) = Ok bv) ->
     err = ErrNew "signature is invalid").
Proof.
  apply (publish_unverified_signature_writes_nothing "abc" forged
           (sample_service empty_table)).
  intros (bv & Hbv & Hver). vm_compute in Hbv. injection Hbv as <-.
  vm_compute in Hver. discriminate Hver.
Defined.

Lemma resolve_store_fallback_then_cache_witness :
  exists s1 s2,
    GetPkarr id_hello restarted = (Returns (Some (response_of request_hello), None), s1) /\
    GetPkarr id_hello s1 = (Returns (Some (response_of request_hello), None), s2) /\
    dht s2 = dht s1.
Proof.
  edestruct (resolve_store_fallback_then_cache id_hello
               (ErrLib "Entry not found") (cache restarted)
               (ErrLib "item not found") (dht restarted)
               (toRecord request_hello) (db restarted)
               (response_of request_hello)
               (vec_to_list (req_Sig request_hello) ++ standin_seq 1 ++ x01 :: hello)
               (cache_Set (cache restarted) id_hello
                  (vec_to_list (req_Sig request_hello) ++ standin_seq 1 ++ x01 :: hello)).2
               restarted)
    as (_ & _ & s1 & s2 & H1 & _ & _ & H2 & _ & H3).
  - apply standin_json_roundtrips.
  - apply MemCache_reads_own_writes.
  - vm_compute. reflexivity.
  - vm_compute. reflexivity.
  - vm_compute. reflexivity.
  - vm_compute. reflexivity.
  - vm_compute. reflexivity.
  - vm_compute. reflexivity.
  - exists s1, s2. split; [exact H1|]. split; [exact H2|exact H3].
Defined.

Lemma publish_cache_failure_after_durable_write_witness :
  exists s1,
    PublishPkarr "abc" request_hello cache_full =
      (Returns (Some (ErrLib "entry is bigger than max shard size")), s1) /\
    postgres.pkarr_records (db s1) =
      [postgres.row_of (postgres.params_of (toRecord request_hello))] /\
    goroutines s1 = [].
Proof.
  edestruct (publish_cache_failure_after_durable_write "abc" request_hello
               (ErrLib "entry is bigger than max shard size")
               (WriteRecord empty_table (toRecord request_hello)).2
               (vec_to_list (req_Sig request_hello) ++ standin_seq 1 ++ x01 :: hello)
               (cache cache_full) cache_full)
    as (s1 & H1 & H2 & H3 & _).
  - vm_compute. reflexivity.
  - vm_compute. reflexivity.
  - vm_compute. reflexivity.
  - vm_compute. reflexivity.
  - exists s1. split; [exact H1|]. split; [by rewrite H2|exact H3].
Defined.

Lemma republish_attempts_every_record_witness :
  exists attempts s1,
    republish tick_service = (Returns tt, s1) /\
    length attempts = 3%nat /\
    calls s1 = CallListRecords (Ok three_records) :: map attempt_call attempts.
Proof.
  edestruct (republish_attempts_every_record three_records (db tick_service)
               tick_service)
    as (attempts & s1 & H1 & H2 & H3 & _).
  - apply standin_base64_roundtrips.
  - vm_compute. reflexivity.
  - repeat constructor; apply toRecord_well_formed, standin_base64_roundtrips.
  - exists attempts, s1. split; [exact H1|]. split; [exact H2|exact H3].
Defined.

(** What that tick leaves: three puts, one refused, and the summary. *)
Example republish_two_of_three :
  exists s1,
    republish tick_service = (Returns tt, s1) /\
    map (fun c => match c with CallDhtPut p err => Some (put_Seq p, err) | _ => None end)
      (calls s1) =
      [None; Some (1, None); Some (2, Some (ErrLib "put refused")); Some (3, None)] /\
    log s1 = [log_republishing 3; log_put_failed (ErrLib "put refused");
              log_complete 2 3].
Proof. eexists. split; [vm_compute; reflexivity|]. split; vm_compute; reflexivity. Qed.

Lemma resolve_nil_record_nil_error_witness :
  exists s1, @GetPkarr _ _ _ _ MapStore_Storage _ _ "abc" empty_bucket = (Returns (None, None), s1).
Proof.
  apply (@resolve_nil_record_nil_error _ _ _ _ MapStore_Storage _ _ "abc"
           (ErrLib "Entry not found") (cache empty_bucket)
           (ErrLib "item not found") (dht empty_bucket) ∅ empty_bucket).
  - vm_compute. reflexivity.
  - vm_compute. reflexivity.
  - vm_compute. reflexivity.
Defined.


(** *** Publishing again *)

Lemma publish_twice_inserts_twice_witness :
  (exists b s3 s4,
     calls published = [CallWriteRecord (toRecord request_hello) None;
                        CallCacheSet "abc" b None] /\
     calls published_twice = calls published ++
                             [CallWriteRecord (toRecord request_hello) None;
                              CallCacheSet "abc" b None] /\
     GetPkarr "abc" published = (Returns (Some (response_of request_hello), None), s3) /\
     GetPkarr "abc" published_twice =
       (Returns (Some (response_of request_hello), None), s4)) /\
  length (postgres.pkarr_records (db published_twice)) = 2%nat.
Proof.
  split.
  - apply (publish_twice_inserts_twice "abc" request_hello
             (sample_service empty_table) published published_twice).
    + apply standin_json_roundtrips.
    + apply MemCache_reads_own_writes.
    + vm_compute. reflexivity.
    + vm_compute. reflexivity.
  - vm_compute. reflexivity.
Defined.

(** Against C4 as stated: the second write of the same arguments does not
    overwrite the first, neither on a table without a uniqueness constraint
    on the key (it adds a second row) nor on one with it (it is refused). *)
Lemma second_write_does_not_overwrite :
  ~ postgres.second_write_overwrites empty_table args_hello /\
  ~ postgres.second_write_overwrites empty_unique_table args_hello.
Proof.
  split; intros Hc.
  - destruct (Hc (postgres.WriteRecord empty_table args_hello).2 eq_refl)
      as (q2 & Hw & Hrows).
    vm_compute in Hw. injection Hw as <-. vm_compute in Hrows. discriminate Hrows.
  - destruct (Hc (postgres.WriteRecord empty_unique_table args_hello).2 eq_refl)
      as (q2 & Hw & Hrows).
    vm_compute in Hw. discriminate Hw.
Qed.

(** The same through the service, over the table with the constraint: the
    second publish of the same request returns the error of the INSERT. *)
Example publish_twice_unique_key :
  let s1 := (PublishPkarr "abc" request_hello (sample_service empty_unique_table)).2 in
  (PublishPkarr "abc" request_hello (sample_service empty_unique_table)).1 = Returns None /\
  (PublishPkarr "abc" request_hello s1).1 = Returns (Some postgres.ErrUniqueViolation).
Proof. split; vm_compute; reflexivity. Qed.

Lemma publish_lower_seq_replaces_witness :
  req_Seq request_world_1 <> 0 /\
  exists s2 s3,
    PublishPkarr "abc" request_world_1 published_2 = (Returns None, s2) /\
    db s2 = (WriteRecord (db published_2) (toRecord request_world_1)).2 /\
    calls s2 = calls published_2 ++
      [CallWriteRecord (toRecord request_world_1) None;
       CallCacheSet "abc"
         (vec_to_list (req_Sig request_world_1) ++ standin_seq 1 ++ x01 :: world) None] /\
    GetPkarr "abc" s2 = (Returns (Some (response_of request_world_1), None), s3).
Proof.
  apply (publish_lower_seq_replaces "abc" request_hello_2 request_world_1
           (WriteRecord (db published_2) (toRecord request_world_1)).2
           (vec_to_list (req_Sig request_world_1) ++ standin_seq 1 ++ x01 :: world)
           (cache_Set (cache published_2) "abc"
              (vec_to_list (req_Sig request_world_1) ++ standin_seq 1 ++ x01 :: world)).2
           (sample_service empty_table) published_2).
  - apply standin_json_roundtrips.
  - apply MemCache_reads_own_writes.
  - vm_compute. reflexivity.
  - vm_compute. reflexivity.
  - vm_compute. reflexivity.
  - vm_compute. reflexivity.
  - vm_compute. reflexivity.
  - vm_compute. reflexivity.
Defined.

(** Against C5 as stated: after the publish with Seq 1, the publish of
    {V: "world", K: k1, Sig: s2, Seq: 0}, whose signature verifies, does not
    succeed: the required-field validation refuses the zero Seq and nothing
    is written. *)
Lemma publish_seq_zero_is_refused :
  (PublishPkarr "abc" request_hello (sample_service empty_table)).1 = Returns None /\
  req_Seq request_world_0 = 0 /\
  signature_verifies request_world_0 /\
  PublishPkarr "abc" request_world_0 published =
    (Returns (Some (ErrValidation ["Seq"])), published).
Proof.
  split; [vm_compute; reflexivity|]. split; [reflexivity|]. split.
  - exists (bencode_bytes world). split; vm_compute; reflexivity.
  - vm_compute. reflexivity.
Qed.

(** *** A payload over the limit *)

(** Against C9 as stated: on the service [NewPkarrService] makes, with the
    cache configured with MaxEntrySize 1000, a request whose V has 1001 bytes
    is published and resolves. *)
Lemma oversize_payload_is_published :
  NewPkarrService (Some sample_config) empty_table = Ok started /\
  MaxEntrySize (cacheConfig sample_config) = 1000 /\
  length (slice_data (req_V request_long)) = 1001%nat /\
  (PublishPkarr "abc" request_long started).1 = Returns None /\
  (GetPkarr "abc" (PublishPkarr "abc" request_long started).2).1 =
    Returns (Some (response_of request_long), None).
Proof. repeat split; vm_compute; reflexivity. Qed.

Lemma publish_oversize_payload_is_up_to_the_cache_witness :
  MaxEntrySize (cacheConfig sample_config) = recordSizeLimit /\
  (PublishPkarr "abc" request_long started).1 =
    Returns (cache_Set (cache started) "abc"
               (vec_to_list (req_Sig request_long) ++ standin_seq 1 ++ x01 :: long_payload)).1 /\
  db (PublishPkarr "abc" request_long started).2 =
    (WriteRecord (db started) (toRecord request_long)).2 /\
  (cache_enforces_entry_limit ->
   (length (slice_data (req_V request_long)) <=
    length (vec_to_list (req_Sig request_long) ++ standin_seq 1 ++ x01 :: long_payload))%nat ->
   exists err, (PublishPkarr "abc" request_long started).1 = Returns (Some err)).
Proof.
  apply (publish_oversize_payload_is_up_to_the_cache sample_config "abc" request_long
           (WriteRecord (db started) (toRecord request_long)).2
           (vec_to_list (req_Sig request_long) ++ standin_seq 1 ++ x01 :: long_payload)
           started).
  - vm_compute. reflexivity.
  - vm_compute. reflexivity.
  - vm_compute. reflexivity.
  - vm_compute. reflexivity.
Defined.

End examples.

(** * Further properties of the code *)

(** ** Validation and the two conversions of a stored record *)

Section conversions.
Context `{GoLibs}.

(** X1. isValid accepts a request exactly when V is not nil, K and Sig are
    not all zero, Seq is not zero, and the signature verifies. *)
Theorem isValid_accepts_iff (p : PublishPkarrRequest) :
  isValid p = None <->
  req_V p <> None /\ req_K p <> zero_array 32 /\ req_Sig p <> zero_array 64 /\
  req_Seq p <> 0 /\ signature_verifies p.
Proof.
  rewrite isValid_None, IsValidStruct_None. tauto.
Qed.

Lemma required_failures_spec (p : PublishPkarrRequest) :
  ("V" ∈ required_failures p <-> req_V p = None) /\
  ("K" ∈ required_failures p <-> req_K p = zero_array 32) /\
  ("Sig" ∈ required_failures p <-> req_Sig p = zero_array 64) /\
  ("Seq" ∈ required_failures p <-> req_Seq p = 0).
Proof.
  unfold required_failures.
  destruct (decide (req_V p = None)), (decide (req_K p = zero_array 32)),
    (decide (req_Sig p = zero_array 64)), (decide (req_Seq p = 0));
    simpl; rewrite ?elem_of_cons, ?elem_of_nil; intuition congruence.
Qed.

(** X2. A request with a zero-valued field is refused with the validation
    error, whether or not its signature verifies, and the error names exactly
    the zero-valued fields. *)
Theorem isValid_names_zero_fields (p : PublishPkarrRequest) :
  req_V p = None \/ req_K p = zero_array 32 \/ req_Sig p = zero_array 64 \/
  req_Seq p = 0 ->
  exists fields,
    isValid p = Some (ErrValidation fields) /\
    ("V" ∈ fields <-> req_V p = None) /\
    ("K" ∈ fields <-> req_K p = zero_array 32) /\
    ("Sig" ∈ fields <-> req_Sig p = zero_array 64) /\
    ("Seq" ∈ fields <-> req_Seq p = 0).
Proof.
  intros Hz. exists (required_failures p). split; [|apply required_failures_spec].
  unfold isValid, IsValidStruct.
  destruct (required_failures p) as [|f l] eqn:Hf; [|done].
  pose proof (required_failures_spec p) as (HV & HK & HS & HQ).
  rewrite Hf in HV, HK, HS, HQ.
  destruct Hz as [Hz|[Hz|[Hz|Hz]]];
    [apply HV in Hz|apply HK in Hz|apply HS in Hz|apply HQ in Hz];
    by apply elem_of_nil in Hz.
Qed.

(** X3. fromPkarrRecord fails with the error of the first field, V then Sig,
    that does not decode; when both decode it panics if the signature has
    fewer than 64 bytes, and otherwise returns the decoded V, the stored Seq
    and the first 64 bytes of the signature. *)
Theorem fromPkarrRecord_outcome (record : pkarr_Record) :
  match DecodeString (rec_V record), DecodeString (rec_Sig record) with
  | Err err, _ => fromPkarrRecord record = Returns (Err err)
  | Ok _, Err err => fromPkarrRecord record = Returns (Err err)
  | Ok v, Ok sig =>
      if decide (length sig < 64)%nat
      then fromPkarrRecord record = Panics
      else exists resp,
          fromPkarrRecord record = Returns (Ok resp) /\
          resp_V resp = Some v /\ resp_Seq resp = rec_Seq record /\
          vec_to_list (resp_Sig resp) = take 64 sig
  end.
Proof.
  unfold fromPkarrRecord.
  destruct (DecodeString (rec_V record)) as [v|e]; [|done].
  destruct (DecodeString (rec_Sig record)) as [sig|e]; [|done].
  destruct (decide (length sig < 64)%nat) as [Hs|Hs].
  - by rewrite slice_to_array_short.
  - destruct (slice_to_array_take 64 sig) as (a & -> & Ha); [lia|].
    by eexists.
Qed.

(** X4. recordToBEP44Put fails with the error of the first field, V then K
    then Sig, that does not decode; when all decode it panics if the key has
    fewer than 32 bytes or the signature fewer than 64, and otherwise returns
    the put of the decoded V, the first 32 bytes of the key, the first 64 of
    the signature and the stored Seq. *)
Theorem recordToBEP44Put_outcome (record : pkarr_Record) :
  match DecodeString (rec_V record), DecodeString (rec_K record),
        DecodeString (rec_Sig record) with
  | Err err, _, _ => recordToBEP44Put record = Returns (Err err)
  | Ok _, Err err, _ => recordToBEP44Put record = Returns (Err err)
  | Ok _, Ok _, Err err => recordToBEP44Put record = Returns (Err err)
  | Ok v, Ok k, Ok sig =>
      if decide (length k < 32 \/ length sig < 64)%nat
      then recordToBEP44Put record = Panics
      else exists p,
          recordToBEP44Put record = Returns (Ok p) /\
          put_V p = Some v /\ vec_to_list (put_K p) = take 32 k /\
          vec_to_list (put_Sig p) = take 64 sig /\ put_Seq p = rec_Seq record
  end.
Proof.
  unfold recordToBEP44Put.
  destruct (DecodeString (rec_V record)) as [v|e]; [|done].
  destruct (DecodeString (rec_K record)) as [k|e]; [|done].
  destruct (DecodeString (rec_Sig record)) as [sig|e]; [|done].
  destruct (decide (length k < 32 \/ length sig < 64)%nat) as [Hs|Hs].
  - destruct (decide (length k < 32)%nat) as [Hk|Hk].
    + by rewrite (slice_to_array_short 32 k).
    + destruct (slice_to_array_take 32 k) as (a & -> & _); [lia|].
      rewrite (slice_to_array_short 64 sig); [done|lia].
  - destruct (slice_to_array_take 32 k) as (a & -> & Ha); [lia|].
    destruct (slice_to_array_take 64 sig) as (b & -> & Hb); [lia|].
    by eexists.
Qed.

(** X5. A record made by toRecord reads back through fromPkarrRecord as the
    request's Seq and Sig and the bytes of its V; for a request whose V is
    not nil that is the very response PublishPkarr caches. *)
Theorem toRecord_fromPkarrRecord (request : PublishPkarrRequest) :
  base64_roundtrips ->
  fromPkarrRecord (toRecord request) =
    Returns (Ok {| resp_V := Some (slice_data (req_V request));
                   resp_Seq := req_Seq request; resp_Sig := req_Sig request |}) /\
  (req_V request <> None ->
   fromPkarrRecord (toRecord request) = Returns (Ok (response_of request))).
Proof.
  intros Hb64.
  assert (fromPkarrRecord (toRecord request) =
    Returns (Ok {| resp_V := Some (slice_data (req_V request));
                   resp_Seq := req_Seq request; resp_Sig := req_Sig request |})) as Heq.
  { unfold fromPkarrRecord, toRecord. cbn [rec_V rec_Sig rec_Seq].
    by rewrite !Hb64, slice_to_array_vec. }
  split; [done|]. intros Hv. rewrite Heq. unfold response_of.
  destruct (req_V request); [done|by destruct Hv].
Qed.

(** X6. The put a republish tick makes for the record of a request whose V is
    not nil is the put the goroutine of PublishPkarr makes for that request. *)
Theorem republished_put_is_published_put (request : PublishPkarrRequest) :
  base64_roundtrips ->
  req_V request <> None ->
  recordToBEP44Put (toRecord request) = Returns (Ok (put_of request)).
Proof.
  intros Hb64 Hv. rewrite (toRecord_put request Hb64). unfold put_of.
  destruct (req_V request); [done|by destruct Hv].
Qed.

End conversions.

(** ** More of the resolve path *)

Section resolve_more.
Context `{GoLibs}.
Context {DB C D : Type} `{Storage DB} `{Cache C} `{DHT D}.

Abbreviation Svc := (PkarrService DB C D).

(** X7. A cache entry that does not unmarshal makes GetPkarr return that
    error with no response: it does not fall back to the DHT or to the store,
    whose states stay as they are. *)
Theorem resolve_corrupt_cache_entry id b c1 err (s : Svc) :
  cache_Get (cache s) id = (Ok b, c1) ->
  json_Unmarshal b = Err err ->
  exists s1,
    GetPkarr id s = (Returns (None, Some err), s1) /\
    calls s1 = calls s ++ [CallCacheGet id (Ok b)] /\
    dht s1 = dht s /\ db s1 = db s /\ log s1 = log s.
Proof.
  intros Hg Hu. unfold GetPkarr, bind, s_cache_Get. rewrite Hg. simpl.
  rewrite Hu. by eexists.
Qed.

(** X8. On a cache miss with the DHT holding the item, GetPkarr returns the
    response made of the item (the payload decoded from its bencoding, its Seq
    and Sig) with a nil error, whether the cache takes the new entry or
    refuses it, and never reads the store. *)
Theorem resolve_from_dht id e1 c1 got d1 bBytes payload b (s : Svc) :
  cache_Get (cache s) id = (Err e1, c1) ->
  dht_GetFull (dht s) id = (Ok got, d1) ->
  bencode_Bytes_MarshalBencode (got_V got) = Ok bBytes ->
  bencode_Unmarshal bBytes = Ok payload ->
  json_Marshal {| resp_V := Some payload; resp_Seq := got_Seq got;
                  resp_Sig := got_Sig got |} = Ok b ->
  exists s1,
    GetPkarr id s =
      (Returns (Some {| resp_V := Some payload; resp_Seq := got_Seq got;
                        resp_Sig := got_Sig got |}, None), s1) /\
    db s1 = db s /\
    cache s1 = (cache_Set c1 id b).2 /\
    calls s1 = calls s ++ [CallCacheGet id (Err e1); CallDhtGetFull id (Ok got);
                           CallCacheSet id b (cache_Set c1 id b).1].
Proof.
  intros Hg Hd Hmb Hub Hm.
  unfold GetPkarr, bind, s_cache_Get, s_dht_GetFull. rewrite Hg. simpl.
  rewrite Hd. simpl. rewrite Hmb, Hub. unfold addRecordToCache. rewrite Hm.
  unfold bind, s_cache_Set. simpl.
  destruct (cache_Set c1 id b) as [[err|] c2]; simpl; eexists;
    (split; [reflexivity|]); simpl; by rewrite <- !app_assoc.
Qed.

(** X9. In the storage fallback a cache that refuses the entry makes GetPkarr
    return the response together with the cache's error, where the DHT path
    returns the response alone. *)
Theorem resolve_from_store_cache_refuses
    id e1 c1 e2 d1 record db1 resp b err c2 (s : Svc) :
  cache_Get (cache s) id = (Err e1, c1) ->
  dht_GetFull (dht s) id = (Err e2, d1) ->
  ReadRecord (db s) id = ((Some record, None), db1) ->
  fromPkarrRecord record = Returns (Ok resp) ->
  json_Marshal resp = Ok b ->
  cache_Set c1 id b = (Some err, c2) ->
  exists s1, GetPkarr id s = (Returns (Some resp, Some err), s1).
Proof.
  intros Hg Hd Hr Hf Hm Hs.
  rewrite (GetPkarr_fallback id e1 c1 e2 d1) by done.
  unfold bind, logf, db_ReadRecord, lift_exec, addRecordToCache. simpl.
  rewrite Hr. simpl. rewrite Hf, Hm. unfold bind, s_cache_Set. simpl.
  rewrite Hs. simpl. by eexists.
Qed.

(** X10. When the cache misses, the DHT lookup fails and ReadRecord returns an
    error, GetPkarr returns the error of the store, not that of the DHT, with
    no response, even if ReadRecord gave a record with the error; the cache is
    not written. *)
Theorem resolve_store_error id e1 c1 e2 d1 record e3 db1 (s : Svc) :
  cache_Get (cache s) id = (Err e1, c1) ->
  dht_GetFull (dht s) id = (Err e2, d1) ->
  ReadRecord (db s) id = ((record, Some e3), db1) ->
  exists s1,
    GetPkarr id s = (Returns (None, Some e3), s1) /\
    cache s1 = c1 /\
    calls s1 = calls s ++ [CallCacheGet id (Err e1); CallDhtGetFull id (Err e2);
                           CallReadRecord id record (Some e3)].
Proof.
  intros Hg Hd Hr. rewrite (GetPkarr_fallback id e1 c1 e2 d1) by done.
  unfold bind, logf, db_ReadRecord. simpl. rewrite Hr. simpl.
  destruct record; simpl; eexists; (split; [reflexivity|]); simpl;
    by rewrite <- !app_assoc.
Qed.

(** X11. A stored record that does not convert: when a field fails to decode
    GetPkarr returns that error with no response and does not write the
    cache; when the stored signature decodes to fewer than 64 bytes GetPkarr
    panics. *)
Theorem resolve_unconvertible_record id e1 c1 e2 d1 record db1 (s : Svc) :
  cache_Get (cache s) id = (Err e1, c1) ->
  dht_GetFull (dht s) id = (Err e2, d1) ->
  ReadRecord (db s) id = ((Some record, None), db1) ->
  (forall err, fromPkarrRecord record = Returns (Err err) ->
     exists s1, GetPkarr id s = (Returns (None, Some err), s1) /\ cache s1 = c1) /\
  (fromPkarrRecord record = Panics ->
     exists s1, GetPkarr id s = (Panics, s1) /\ cache s1 = c1).
Proof.
  intros Hg Hd Hr. rewrite (GetPkarr_fallback id e1 c1 e2 d1) by done.
  unfold bind, logf, db_ReadRecord, lift_exec. simpl. rewrite Hr. simpl.
  split.
  - intros err ->. by eexists.
  - intros ->. by eexists.
Qed.

(** Closes a goal on the calls a method made, once the calls are given. *)
Ltac finish_calls :=
  split; [reflexivity|]; split; [done|];
  split; [simpl; rewrite <- ?app_assoc; reflexivity|];
  split; [simpl; lia|repeat constructor].

(** X12. Whatever the collaborators answer, GetPkarr first looks the id up in
    the cache, makes at most three more calls, none of them a store write or
    a DHT put, and starts no goroutine. *)
Theorem GetPkarr_only_reads_and_caches id (s : Svc) :
  exists r s1 rest,
    GetPkarr id s = (r, s1) /\
    goroutines s1 = goroutines s /\
    calls s1 = calls s ++ CallCacheGet id (cache_Get (cache s) id).1 :: rest /\
    (length rest <= 3)%nat /\
    Forall (fun c => match c with
                     | CallWriteRecord _ _ | CallDhtPut _ _ => False
                     | _ => True
                     end) rest.
Proof.
  unfold GetPkarr, bind, s_cache_Get.
  destruct (cache_Get (cache s) id) as [[b|e1] c1]; simpl.
  { destruct (json_Unmarshal b) as [resp|err]; simpl;
      eexists _, _, []; finish_calls. }
  unfold s_dht_GetFull. simpl.
  destruct (dht_GetFull (dht s) id) as [[got|e2] d1]; simpl.
  - destruct (bencode_Bytes_MarshalBencode (got_V got)) as [bBytes|err]; simpl;
      [|eexists _, _, [_]; finish_calls].
    destruct (bencode_Unmarshal bBytes) as [payload|err]; simpl;
      [|eexists _, _, [_]; finish_calls].
    unfold addRecordToCache.
    destruct (json_Marshal _) as [b|err]; simpl;
      [|eexists _, _, [_]; finish_calls].
    unfold bind, s_cache_Set. simpl.
    destruct (cache_Set c1 id b) as [[err|] c2]; simpl;
      eexists _, _, [_; _]; finish_calls.
  - unfold db_ReadRecord. simpl.
    destruct (ReadRecord (db s) id) as [[[record|] [e3|]] db1]; simpl;
      try (eexists _, _, [_; _]; finish_calls).
    unfold lift_exec. simpl.
    destruct (fromPkarrRecord record) as [[resp|err]|]; simpl;
      try (eexists _, _, [_; _]; finish_calls).
    unfold addRecordToCache.
    destruct (json_Marshal resp) as [b|err]; simpl;
      [|eexists _, _, [_; _]; finish_calls].
    unfold bind, s_cache_Set. simpl.
    destruct (cache_Set c1 id b) as [[err|] c2]; simpl;
      eexists _, _, [_; _; _]; finish_calls.
Qed.

(** X13. A record PublishPkarr wrote, read back from the store when the cache
    and the DHT have nothing: GetPkarr resolves the id to the V, Seq and Sig
    of the request. *)
Theorem publish_store_resolve id request e1 c1 e2 d1 db1 (s : Svc) :
  base64_roundtrips ->
  req_V request <> None ->
  cache_Get (cache s) id = (Err e1, c1) ->
  dht_GetFull (dht s) id = (Err e2, d1) ->
  ReadRecord (db s) id = ((Some (toRecord request), None), db1) ->
  exists err s1, GetPkarr id s = (Returns (Some (response_of request), err), s1).
Proof.
  intros Hb64 Hv Hg Hd Hr.
  assert (fromPkarrRecord (toRecord request) = Returns (Ok (response_of request))) as Hf.
  { unfold fromPkarrRecord, toRecord, response_of. cbn [rec_V rec_Sig rec_Seq].
    rewrite !Hb64, slice_to_array_vec. by destruct (req_V request). }
  rewrite (GetPkarr_fallback id e1 c1 e2 d1) by done.
  unfold bind, logf, db_ReadRecord, lift_exec, addRecordToCache. simpl.
  rewrite Hr. simpl. rewrite Hf.
  destruct (json_Marshal (response_of request)) as [b|err]; simpl.
  - unfold bind, s_cache_Set. simpl.
    destruct (cache_Set c1 id b) as [[err|] c2]; simpl; by eexists _, _.
  - by eexists _, _.
Qed.

End resolve_more.

(** ** More of the publish path *)

Section publish_more.
Context `{GoLibs}.
Context {DB C D : Type} `{Storage DB} `{Cache C} `{DHT D}.

Abbreviation Svc := (PkarrService DB C D).

(** X14. When the store refuses the record of a valid request, PublishPkarr
    returns the store's error after that single call: the cache is not
    written and no goroutine is started. *)
Theorem publish_store_failure_stops id request err db1 (s : Svc) :
  isValid request = None ->
  WriteRecord (db s) (toRecord request) = (Some err, db1) ->
  exists s1,
    PublishPkarr id request s = (Returns (Some err), s1) /\
    cache s1 = cache s /\ dht s1 = dht s /\
    goroutines s1 = goroutines s /\
    calls s1 = calls s ++ [CallWriteRecord (toRecord request) (Some err)].
Proof.
  intros Hv Hw. eexists. split; [by apply PublishPkarr_write_fails|]. done.
Qed.

(** X15. Whatever the request and the collaborators, PublishPkarr returns
    without a panic, leaves the DHT and the log as they are, makes no call but
    a store write followed at most by one cache write, and starts a goroutine,
    the one that puts the request, exactly when it returns a nil error. *)
Theorem PublishPkarr_effects id request (s : Svc) :
  exists err s1 new,
    PublishPkarr id request s = (Returns err, s1) /\
    dht s1 = dht s /\ log s1 = log s /\
    calls s1 = calls s ++ new /\
    (new = [] \/
     (exists e, new = [CallWriteRecord (toRecord request) e]) \/
     (exists b e, new = [CallWriteRecord (toRecord request) None;
                         CallCacheSet id b e])) /\
    goroutines s1 = goroutines s ++
      match err with
      | None => [put_of request]
      | Some _ => []
      end.
Proof.
  destruct (isValid request) as [e|] eqn:Hv.
  { exists (Some e), s, []. rewrite !app_nil_r.
    split; [by apply PublishPkarr_invalid|]. repeat split; try done. by left. }
  destruct (WriteRecord (db s) (toRecord request)) as [[e|] db1] eqn:Hw.
  { eexists (Some e), _, [_]. split; [by eapply PublishPkarr_write_fails|].
    simpl. rewrite app_nil_r. repeat split; try done. right. left. by eexists. }
  destruct (json_Marshal (response_of request)) as [b|e] eqn:Hm; cycle 1.
  { eexists (Some e), _, [_]. split; [by eapply PublishPkarr_marshal_fails|].
    simpl. rewrite app_nil_r. repeat split; try done. right. left. by eexists. }
  destruct (cache_Set (cache s) id b) as [[e|] c1] eqn:Hc.
  { eexists (Some e), _, [_; _]. split; [by eapply PublishPkarr_cache_fails|].
    simpl. rewrite app_nil_r, <- app_assoc.
    repeat split; try done. right. right. by eexists _, _. }
  eexists None, _, [_; _]. split; [by eapply PublishPkarr_succeeds|].
  simpl. repeat split; try done. right. right. by eexists _, _.
Qed.

Lemma delete_last {A} (l : list A) (x : A) : delete (length l) (l ++ [x]) = l.
Proof. induction l as [|a l IH]; simpl; [done|]. by rewrite IH. Qed.

(** X16. After a successful PublishPkarr the goroutine it started can run: it
    makes one DHT put, of the K, V, Sig and Seq of the request, to the DHT as
    the publish left it, and leaves the store, the cache and the goroutines
    started before as they are. *)
Theorem published_goroutine_puts_request id request (s s1 : Svc) :
  PublishPkarr id request s = (Returns None, s1) ->
  exists s2,
    go_step s1 s2 /\
    goroutines s2 = goroutines s /\
    calls s2 = calls s1 ++
      [CallDhtPut {| put_V := req_V request; put_K := req_K request;
                     put_Sig := req_Sig request; put_Seq := req_Seq request |}
         (dht_Put (dht s) (put_of request)).1] /\
    dht s2 = (dht_Put (dht s) (put_of request)).2 /\
    db s2 = db s1 /\ cache s2 = cache s1.
Proof.
  intros Hp.
  apply PublishPkarr_success_inv in Hp as (db1 & b & c1 & _ & _ & _ & _ & ->).
  match goal with |- context [go_step ?st _] => set (s1 := st) end.
  destruct (goroutine_body_spec (put_of request)
              (set_goroutines (delete (length (goroutines s)) (goroutines s1)) s1))
    as (s2 & Hb & Hdb & Hc & Hg & Hd & Hcalls & _).
  exists s2. split.
  { apply (go_step_run s1 (length (goroutines s)) (put_of request)); [|done].
    subst s1. simpl. by rewrite lookup_app_r, Nat.sub_diag. }
  subst s1. simpl in *. rewrite delete_last in Hg. done.
Qed.

End publish_more.

(** ** More of the republish tick *)

Section republish_more.
Context `{GoLibs}.
Context {DB C D : Type} `{Storage DB} `{DHT D}.

Abbreviation Svc := (PkarrService DB C D).

(** X17. When ListRecords fails, or returns no record, a republish tick
    returns after that one call, puts nothing to the DHT and logs one entry:
    the error of the store, or that there is nothing to republish. *)
Theorem republish_nothing_to_do res db1 (s : Svc) :
  ListRecords (db s) = (res, db1) ->
  (exists err, res = Err err) \/ res = Ok [] ->
  exists s1,
    republish s = (Returns tt, s1) /\
    dht s1 = dht s /\
    calls s1 = calls s ++ [CallListRecords res] /\
    log s1 = log s ++
      [match res with
       | Err err =>
           {| log_level := ErrorLevel; log_error := Some err;
              log_format := "failed to list record(s) for republishing";
              log_args := [] |}
       | Ok _ =>
           {| log_level := InfoLevel; log_error := None;
              log_format := "No records to republish"; log_args := [] |}
       end].
Proof.
  intros Hl Hres. unfold republish, bind, db_ListRecords. rewrite Hl. simpl.
  destruct Hres as [[err ->]| ->]; simpl; by eexists.
Qed.

Lemma visit_calls_are_puts visits :
  exists attempts, omap visit_call visits = map attempt_call attempts /\
                   (length attempts <= length visits)%nat.
Proof.
  induction visits as [|[e|p e] visits (attempts & IH & Hlen)]; csimpl.
  - by exists [].
  - exists attempts. split; [done|lia].
  - exists ((p, e) :: attempts). rewrite IH. split; [done|simpl; lia].
Qed.

(** X18. Whatever the store and the DHT answer, a republish tick leaves the
    cache and the goroutines as they are, and after listing the records calls
    nothing but the DHT put, at most once per record listed: it never writes
    or reads a single record of the store. *)
Theorem republish_effects (s : Svc) :
  exists (r : exec unit) s1 attempts,
    republish s = (r, s1) /\
    cache s1 = cache s /\ goroutines s1 = goroutines s /\
    db s1 = (ListRecords (db s)).2 /\
    calls s1 = calls s ++
      CallListRecords (ListRecords (db s)).1 :: map attempt_call attempts /\
    (length attempts <=
     match (ListRecords (db s)).1 with
     | Ok records => length records
     | Err _ => 0
     end)%nat.
Proof.
  unfold republish, bind at 1, db_ListRecords at 1.
  destruct (ListRecords (db s)) as [[records|e] db1]; simpl.
  2:{ eexists _, _, []. repeat split; try done. }
  destruct (decide (length records = 0%nat)) as [Hz|Hnz].
  { eexists _, _, []. simpl. repeat split; try done. lia. }
  unfold bind at 1, logf at 1. simpl. unfold bind at 1.
  match goal with |- context [republish_loop records 0 ?s0] =>
    destruct (republish_loop_spec records 0 s0)
      as (visits & r & s1 & -> & Hdb & Hc & Hg & Hcalls & _ & Hv & _)
  end.
  destruct (visit_calls_are_puts visits) as (attempts & Hatt & Hlen).
  apply Forall2_length in Hv. rewrite length_take in Hv.
  simpl in *. rewrite Hatt in Hcalls.
  destruct r as [n|]; eexists _, _, attempts;
    (split; [reflexivity|]); simpl; rewrite ?Hcalls, ?Hc, ?Hg, ?Hdb, <- ?app_assoc;
    repeat split; try done; lia.
Qed.

Lemma republish_loop_stops_at_panic pre bad post errCnt (s : Svc) :
  Forall well_formed pre ->
  recordToBEP44Put bad = Panics ->
  exists attempts s1,
    republish_loop (pre ++ bad :: post) errCnt s = (Panics, s1) /\
    Forall2 (fun record a => recordToBEP44Put record = Returns (Ok a.1))
      pre attempts /\
    calls s1 = calls s ++ map attempt_call attempts /\
    log s1 = log s ++ map log_put_failed (failures attempts).
Proof.
  intros Hwf Hbad. revert errCnt s.
  induction Hwf as [|record pre Hw _ IH]; intros errCnt s.
  { exists [], s. simpl. unfold bind, lift_exec. rewrite Hbad, !app_nil_r.
    repeat split; try done. }
  destruct (well_formed_put record Hw) as [p Hp].
  simpl. unfold bind at 1, lift_exec at 1. rewrite Hp.
  unfold bind at 1, s_dht_Put at 1.
  destruct (dht_Put (dht s) p) as [[err|] d1] eqn:Hput.
  - unfold bind at 1, logf at 1. simpl.
    match goal with |- context [republish_loop _ ?n ?s0] =>
      destruct (IH n s0) as (attempts & s1 & -> & Hatt & Hcalls & Hlog)
    end.
    exists ((p, Some err) :: attempts), s1. simpl in *.
    rewrite Hcalls, Hlog, <- !app_assoc. repeat split; try done. by constructor.
  - simpl.
    match goal with |- context [republish_loop _ ?n ?s0] =>
      destruct (IH n s0) as (attempts & s1 & -> & Hatt & Hcalls & Hlog)
    end.
    exists ((p, None) :: attempts), s1. simpl in *.
    rewrite Hcalls, Hlog, <- !app_assoc. repeat split; try done. by constructor.
Qed.

(** X19. A stored record whose key decodes to fewer than 32 bytes, or whose
    signature to fewer than 64, ends the tick in a panic: the well-formed
    records listed before it have had their put, the records after it get
    none, and no summary is logged. *)
Theorem republish_stops_at_panic pre bad post db1 (s : Svc) :
  ListRecords (db s) = (Ok (pre ++ bad :: post), db1) ->
  Forall well_formed pre ->
  recordToBEP44Put bad = Panics ->
  exists attempts s1,
    republish s = (Panics, s1) /\
    length attempts = length pre /\
    calls s1 = calls s ++
      CallListRecords (Ok (pre ++ bad :: post)) :: map attempt_call attempts /\
    log s1 = log s ++
      log_republishing (length (pre ++ bad :: post)) ::
      map log_put_failed (failures attempts).
Proof.
  intros Hl Hwf Hbad. unfold republish, bind at 1, db_ListRecords at 1.
  rewrite Hl. simpl.
  destruct (decide (length (pre ++ bad :: post) = 0%nat)) as [Hz|_].
  { rewrite length_app in Hz. simpl in Hz. lia. }
  unfold bind at 1, logf at 1. simpl. unfold bind at 1.
  match goal with |- context [republish_loop _ 0 ?s0] =>
    destruct (republish_loop_stops_at_panic pre bad post 0 s0 Hwf Hbad)
      as (attempts & s1 & -> & Hatt & Hcalls & Hlog)
  end.
  exists attempts, s1. split; [done|]. split.
  { symmetry. by eapply Forall2_length. }
  simpl in *. rewrite Hcalls, Hlog, <- !app_assoc. done.
Qed.

(** X20. Over records none of which makes the conversion panic, a tick visits
    every record in order: a record that converts gets its put, a record with
    a field that does not decode gets none and is counted as failed, as is a
    record whose put the DHT refuses; each failure has its log entry, and the
    summary reports the records minus the failures. *)
Theorem republish_counts_failures records db1 (s : Svc) :
  ListRecords (db s) = (Ok records, db1) ->
  records <> [] ->
  Forall (fun record => recordToBEP44Put record <> Panics) records ->
  exists visits s1,
    republish s = (Returns tt, s1) /\
    Forall2 visit_of records visits /\
    calls s1 = calls s ++ CallListRecords (Ok records) :: omap visit_call visits /\
    log s1 = log s ++
      log_republishing (length records) :: omap visit_log visits ++
      [log_complete (Z.of_nat (length records) - failed_count visits)
         (Z.of_nat (length records))].
Proof.
  intros Hl Hne Hnp. unfold republish, bind at 1, db_ListRecords at 1.
  rewrite Hl. simpl.
  destruct (decide (length records = 0%nat)) as [Hz|_].
  { by destruct records. }
  unfold bind at 1, logf at 1. simpl. unfold bind at 1.
  match goal with |- context [republish_loop records 0 ?s0] =>
    destruct (republish_loop_spec records 0 s0)
      as (visits & r & s1 & -> & _ & _ & _ & Hcalls & Hlog & Hv & Hr)
  end.
  destruct r as [n|]; cycle 1.
  { destruct Hr as (record & Hi & Hpanic).
    apply list_elem_of_lookup_2 in Hi.
    by destruct (proj1 (Forall_forall _ _) Hnp record Hi). }
  destruct Hr as [Hlen ->]. rewrite Hlen, firstn_all in Hv.
  exists visits. eexists. split; [reflexivity|]. split; [done|].
  simpl in *. rewrite Hcalls, Hlog, Z.add_0_l, <- !app_assoc. done.
Qed.

(** The loop over the records of requests whose V is not nil. *)
Lemma republish_loop_requests requests errCnt (s : Svc) :
  base64_roundtrips ->
  Forall (fun request => req_V request <> None) requests ->
  exists errs n s1,
    republish_loop (map toRecord requests) errCnt s = (Returns n, s1) /\
    length errs = length requests /\
    calls s1 = calls s ++ zip_with CallDhtPut (map put_of requests) errs.
Proof.
  intros Hb64 Hv. revert errCnt s.
  induction Hv as [|request requests Hreq _ IH]; intros errCnt s.
  { exists [], errCnt, s. simpl. by rewrite app_nil_r. }
  simpl. unfold bind at 1, lift_exec at 1.
  rewrite (toRecord_put request Hb64).
  assert ({| put_V := Some (slice_data (req_V request)); put_K := req_K request;
             put_Sig := req_Sig request; put_Seq := req_Seq request |}
          = put_of request) as ->.
  { unfold put_of. destruct (req_V request); [done|by destruct Hreq]. }
  unfold bind at 1, s_dht_Put at 1.
  destruct (dht_Put (dht s) (put_of request)) as [[err|] d1] eqn:Hput.
  - unfold bind at 1, logf at 1. simpl.
    match goal with |- context [republish_loop _ ?n ?s0] =>
      destruct (IH n s0) as (errs & m & s1 & -> & Hlen & Hcalls)
    end.
    exists (Some err :: errs), m, s1. simpl in *.
    rewrite Hcalls, Hlen, <- !app_assoc. done.
  - simpl.
    match goal with |- context [republish_loop _ ?n ?s0] =>
      destruct (IH n s0) as (errs & m & s1 & -> & Hlen & Hcalls)
    end.
    exists (None :: errs), m, s1. simpl in *.
    rewrite Hcalls, Hlen, <- !app_assoc. done.
Qed.

(** X21. When the store lists the records of published requests, a tick puts
    to the DHT, request by request and in the order listed, exactly the put
    the goroutine of PublishPkarr made for that request. *)
Theorem republish_repeats_published_puts requests db1 (s : Svc) :
  base64_roundtrips ->
  Forall (fun request => req_V request <> None) requests ->
  ListRecords (db s) = (Ok (map toRecord requests), db1) ->
  exists errs s1,
    republish s = (Returns tt, s1) /\
    length errs = length requests /\
    calls s1 = calls s ++
      CallListRecords (Ok (map toRecord requests)) ::
      zip_with CallDhtPut (map put_of requests) errs.
Proof.
  intros Hb64 Hv Hl. unfold republish, bind at 1, db_ListRecords at 1.
  rewrite Hl. simpl.
  destruct (decide (length (map toRecord requests) = 0%nat)) as [Hz|_].
  { rewrite length_map in Hz. destruct requests; [|done].
    exists []. eexists. simpl. repeat split; done. }
  unfold bind at 1, logf at 1. simpl. unfold bind at 1.
  match goal with |- context [republish_loop _ 0 ?s0] =>
    destruct (republish_loop_requests requests 0 s0 Hb64 Hv)
      as (errs & n & s1 & -> & Hlen & Hcalls)
  end.
  exists errs. eexists. split; [reflexivity|]. split; [done|].
  simpl in *. by rewrite Hcalls, <- !app_assoc.
Qed.

End republish_more.

(** ** More of package postgres *)

Section queries_more.
Import postgres.

Lemma find_has_key key rows row :
  List.find (has_key key) rows = Some row -> row ∈ rows /\ Key row = key.
Proof.
  induction rows as [|r rows IH]; simpl; [discriminate|].
  destruct (has_key key r) eqn:Hk.
  - intros [= <-]. split; [apply list_elem_of_here|].
    unfold has_key in Hk. by apply bool_decide_eq_true in Hk.
  - intros Hf. destruct (IH Hf) as [Hin Hkey]. split; [|done].
    by apply list_elem_of_further.
Qed.

Lemma find_has_key_None key rows :
  List.find (has_key key) rows = None <-> Forall (fun row => Key row <> key) rows.
Proof.
  induction rows as [|r rows IH]; simpl.
  { split; [constructor|done]. }
  unfold has_key at 1. destruct (bool_decide (Key r = key)) eqn:Hk.
  - apply bool_decide_eq_true in Hk. split; [discriminate|].
    intros Hf. apply Forall_cons in Hf as [Hr _]. done.
  - apply bool_decide_eq_false in Hk. rewrite IH. split.
    + intros Hf. by constructor.
    + intros Hf. by apply Forall_cons in Hf as [_ Hf].
Qed.

(** X22. ReadRecord returns a nil error exactly when the connection is up and
    some row has the key, and then the row it returns is a row of the table
    with that key; for a key no row has, it returns the zero row with the
    no-rows error. *)
Theorem ReadRecord_found_iff (q : Queries) (key : string) :
  ((ReadRecord q key).2 = None <->
   down q = None /\ exists row, row ∈ pkarr_records q /\ Key row = key) /\
  ((ReadRecord q key).2 = None ->
   (ReadRecord q key).1 ∈ pkarr_records q /\ Key (ReadRecord q key).1 = key) /\
  (down q = None -> Forall (fun row => Key row <> key) (pkarr_records q) ->
   ReadRecord q key = (zero_PkarrRecord, Some ErrNoRows)).
Proof.
  unfold ReadRecord. destruct (down q) as [e|]; simpl.
  { split; [split; [discriminate|by intros [? _]]|]. split; discriminate. }
  destruct (List.find (has_key key) (pkarr_records q)) as [row|] eqn:Hf; simpl.
  - apply find_has_key in Hf as [Hin Hkey]. split; [|split].
    + split; [|done]. intros _. split; [done|]. by exists row.
    + done.
    + intros _ Hall. by destruct (proj1 (Forall_forall _ _) Hall row Hin).
  - apply find_has_key_None in Hf. split; [|split].
    + split; [discriminate|]. intros [_ (row & Hin & Hkey)].
      by destruct (proj1 (Forall_forall _ _) Hf row Hin).
    + discriminate.
    + done.
Qed.

(** X23. After a successful WriteRecord, ReadRecord finds the key written:
    when no row had that key it returns the very row written; and the answer
    of ReadRecord for any other key is what it was before the write. *)
Theorem WriteRecord_then_ReadRecord (q q1 : Queries) (arg : WriteRecordParams) :
  WriteRecord q arg = (None, q1) ->
  (ReadRecord q1 (arg_Key arg)).2 = None /\
  Key (ReadRecord q1 (arg_Key arg)).1 = arg_Key arg /\
  (Forall (fun row => Key row <> arg_Key arg) (pkarr_records q) ->
   ReadRecord q1 (arg_Key arg) = (row_of arg, None)) /\
  (forall key, key <> arg_Key arg -> ReadRecord q1 key = ReadRecord q key).
Proof.
  unfold WriteRecord. destruct (down q) as [e|] eqn:Hd; [discriminate|].
  destruct (key_unique q && _); [discriminate|]. intros [= <-].
  unfold ReadRecord. simpl. rewrite Hd.
  destruct (List.find (has_key (arg_Key arg)) (pkarr_records q)) as [row|] eqn:Hf.
  - rewrite (find_app_l _ _ _ row Hf). simpl.
    pose proof (find_has_key _ _ _ Hf) as [Hin Hkey].
    split; [done|]. split; [done|]. split.
    + intros Hall. by destruct (proj1 (Forall_forall _ _) Hall row Hin).
    + intros key Hkey'.
      destruct (List.find (has_key key) (pkarr_records q)) as [r|] eqn:Hf'.
      * by rewrite (find_app_l _ _ _ r Hf').
      * rewrite (find_app_r _ _ _ Hf'). simpl. unfold has_key.
        rewrite bool_decide_eq_false_2; [done|]. simpl. congruence.
  - rewrite (find_app_r _ _ _ Hf). simpl. rewrite has_key_row_of. simpl.
    split; [done|]. split; [done|]. split; [done|].
    intros key Hkey'.
    destruct (List.find (has_key key) (pkarr_records q)) as [r|] eqn:Hf'.
    + by rewrite (find_app_l _ _ _ r Hf').
    + rewrite (find_app_r _ _ _ Hf'). simpl. unfold has_key.
      rewrite bool_decide_eq_false_2; [done|]. simpl. congruence.
Qed.

Lemma written_rows_cons arg err answers :
  written_rows ((arg, err) :: answers) =
    match err with
    | None => row_of arg :: written_rows answers
    | Some _ => written_rows answers
    end.
Proof. unfold written_rows. csimpl. by destruct err. Qed.

Lemma WriteRecord_rows q arg err q1 :
  WriteRecord q arg = (err, q1) ->
  down q1 = down q /\
  pkarr_records q1 = pkarr_records q ++ written_rows [(arg, err)].
Proof.
  unfold WriteRecord. rewrite written_rows_cons.
  destruct (down q) as [e|] eqn:Hd.
  { intros [= <- <-]. by rewrite app_nil_r. }
  destruct (key_unique q && _); intros [= <- <-].
  - by rewrite app_nil_r.
  - done.
Qed.

Lemma WriteRecords_spec args q answers q1 :
  WriteRecords q args = (answers, q1) ->
  answers.*1 = args /\
  down q1 = down q /\
  pkarr_records q1 = pkarr_records q ++ written_rows answers.
Proof.
  revert q answers q1. induction args as [|arg args IH]; intros q answers q1.
  { intros [= <- <-]. by rewrite app_nil_r. }
  cbn [WriteRecords].
  destruct (WriteRecord q arg) as [err q'] eqn:Hw.
  destruct (WriteRecords q' args) as [rest q2] eqn:Hws.
  intros [= <- <-].
  destruct (IH _ _ _ Hws) as (Hargs & Hd & Hrows).
  destruct (WriteRecord_rows _ _ _ _ Hw) as [Hd' Hrows'].
  split; [by rewrite fmap_cons, Hargs|]. split; [congruence|].
  rewrite Hrows, Hrows', <- app_assoc. f_equal.
  rewrite !written_rows_cons. by destruct err.
Qed.

(** X24. Over any sequence of WriteRecord calls no row is removed or altered:
    the table ends as the rows it had followed by one row for each write that
    succeeded, in the order of the writes, and a write that failed left
    nothing. *)
Theorem WriteRecords_append_only (args : list WriteRecordParams) (q : Queries) :
  (WriteRecords q args).1.*1 = args /\
  pkarr_records (WriteRecords q args).2 =
    pkarr_records q ++ written_rows (WriteRecords q args).1 /\
  ListRecords (WriteRecords q args).2 =
    match down q with
    | Some err => Err err
    | None => Ok (pkarr_records q ++ written_rows (WriteRecords q args).1)
    end.
Proof.
  destruct (WriteRecords q args) as [answers q1] eqn:Hws.
  destruct (WriteRecords_spec _ _ _ _ Hws) as (Hargs & Hd & Hrows).
  simpl. split; [done|]. split; [done|].
  unfold ListRecords. by rewrite Hd, Hrows.
Qed.

End queries_more.

(** ** The cache configuration *)

Lemma wrap64_small z :
  - 9223372036854775808 <= z < 9223372036854775808 -> wrap64 z = z.
Proof.
  intros Hz. unfold wrap64.
  change (2 ^ 63) with 9223372036854775808.
  change (2 ^ 64) with 18446744073709551616.
  rewrite Z.mod_small by lia. lia.
Qed.

Lemma wrap64_over z :
  9223372036854775808 <= z < 27670116110564327424 ->
  wrap64 z = z - 18446744073709551616.
Proof.
  intros Hz. unfold wrap64.
  change (2 ^ 63) with 9223372036854775808.
  change (2 ^ 64) with 18446744073709551616.
  rewrite <- (Z.mod_unique (z + 9223372036854775808) 18446744073709551616 1
                (z + 9223372036854775808 - 18446744073709551616)); lia.
Qed.

(** X25. For a TTL of 0 to 9223372036 seconds the cache is configured with
    that many seconds as its life window, half of it, rounded down, as its
    clean window, and a MaxEntrySize of 1000; from 9223372037 up to
    18446744073 seconds the multiplication overflows the 64 bits and the life
    window is negative. *)
Theorem cacheConfig_windows (cfg : Config) :
  (0 <= CacheTTLSeconds cfg <= 9223372036 ->
   LifeWindow (cacheConfig cfg) = CacheTTLSeconds cfg * 1000000000 /\
   2 * CleanWindow (cacheConfig cfg) <= LifeWindow (cacheConfig cfg)
     <= 2 * CleanWindow (cacheConfig cfg) + 1 /\
   MaxEntrySize (cacheConfig cfg) = 1000 /\
   HardMaxCacheSize (cacheConfig cfg) = CacheSizeLimitMB cfg) /\
  (9223372037 <= CacheTTLSeconds cfg <= 18446744073 ->
   LifeWindow (cacheConfig cfg) = CacheTTLSeconds cfg * 1000000000 - 2 ^ 64 /\
   LifeWindow (cacheConfig cfg) < 0).
Proof.
  unfold cacheConfig, second. cbn [LifeWindow CleanWindow MaxEntrySize HardMaxCacheSize].
  split.
  - intros Hr. rewrite wrap64_small by lia.
    split; [done|]. split; [|done].
    pose proof (Z.quot_rem' (CacheTTLSeconds cfg * 1000000000) 2) as Hq.
    pose proof (Z.rem_bound_pos (CacheTTLSeconds cfg * 1000000000) 2) as Hb.
    lia.
  - intros Hr. rewrite wrap64_over by lia.
    change (2 ^ 64) with 18446744073709551616. lia.
Qed.

(** ** The further properties at work *)

Section more_examples.
#[local] Existing Instance standin_libs.
#[local] Existing Instance MemCache_Cache.
#[local] Existing Instance MemDHT_DHT.

Abbreviation Svc := (PkarrService postgres.Queries MemCache MemDHT).

Lemma isValid_names_zero_fields_witness :
  exists fields,
    isValid request_zero_fields = Some (ErrValidation fields) /\
    ("V" ∈ fields <-> req_V request_zero_fields = None) /\
    ("K" ∈ fields <-> req_K request_zero_fields = zero_array 32) /\
    ("Sig" ∈ fields <-> req_Sig request_zero_fields = zero_array 64) /\
    ("Seq" ∈ fields <-> req_Seq request_zero_fields = 0).
Proof.
  apply (isValid_names_zero_fields request_zero_fields).
  right. left. reflexivity.
Defined.

Lemma toRecord_fromPkarrRecord_witness :
  fromPkarrRecord (toRecord request_hello) =
    Returns (Ok {| resp_V := Some (slice_data (req_V request_hello));
                   resp_Seq := req_Seq request_hello;
                   resp_Sig := req_Sig request_hello |}) /\
  (req_V request_hello <> None ->
   fromPkarrRecord (toRecord request_hello) = Returns (Ok (response_of request_hello))).
Proof.
  apply (toRecord_fromPkarrRecord request_hello). apply standin_base64_roundtrips.
Defined.

Lemma republished_put_is_published_put_witness :
  recordToBEP44Put (toRecord request_hello) = Returns (Ok (put_of request_hello)).
Proof.
  apply (republished_put_is_published_put request_hello).
  - apply standin_base64_roundtrips.
  - discriminate.
Defined.

Lemma resolve_corrupt_cache_entry_witness :
  exists s1,
    GetPkarr "abc" corrupt_cache =
      (Returns (None, Some (ErrLib "unexpected end of JSON input")), s1) /\
    calls s1 = calls corrupt_cache ++ [CallCacheGet "abc" (Ok [x00])] /\
    dht s1 = dht corrupt_cache /\ db s1 = db corrupt_cache /\
    log s1 = log corrupt_cache.
Proof.
  apply (resolve_corrupt_cache_entry "abc" [x00] (cache corrupt_cache)
           (ErrLib "unexpected end of JSON input") corrupt_cache).
  - vm_compute. reflexivity.
  - vm_compute. reflexivity.
Defined.

Lemma resolve_from_dht_witness :
  exists s1,
    (GetPkarr "abc" dht_has_item).1 =
      Returns (Some {| resp_V := Some hello; resp_Seq := 1;
                       resp_Sig := req_Sig request_hello |}, None) /\
    GetPkarr "abc" dht_has_item = ((GetPkarr "abc" dht_has_item).1, s1) /\
    db s1 = db dht_has_item.
Proof.
  edestruct (resolve_from_dht "abc" (ErrLib "Entry not found") (cache dht_has_item)
               item_hello (dht dht_has_item) (bencode_bytes hello) hello
               (vec_to_list (req_Sig request_hello) ++ standin_seq 1 ++ x01 :: hello)
               dht_has_item)
    as (s1 & H1 & H2 & _).
  - vm_compute. reflexivity.
  - vm_compute. reflexivity.
  - vm_compute. reflexivity.
  - vm_compute. reflexivity.
  - vm_compute. reflexivity.
  - exists s1. rewrite H1. split; [reflexivity|]. split; [reflexivity|exact H2].
Defined.

Lemma resolve_from_store_cache_refuses_witness :
  exists s1,
    GetPkarr id_hello restarted_cache_full =
      (Returns (Some (response_of request_hello),
                Some (ErrLib "entry is bigger than max shard size")), s1).
Proof.
  apply (resolve_from_store_cache_refuses id_hello
           (ErrLib "Entry not found") (cache restarted_cache_full)
           (ErrLib "item not found") (dht restarted_cache_full)
           (toRecord request_hello) (db restarted_cache_full)
           (response_of request_hello)
           (vec_to_list (req_Sig request_hello) ++ standin_seq 1 ++ x01 :: hello)
           (ErrLib "entry is bigger than max shard size")
           (cache restarted_cache_full) restarted_cache_full).
  - vm_compute. reflexivity.
  - vm_compute. reflexivity.
  - vm_compute. reflexivity.
  - vm_compute. reflexivity.
  - vm_compute. reflexivity.
  - vm_compute. reflexivity.
Defined.

Lemma resolve_store_error_witness :
  exists s1,
    GetPkarr "abc" store_down = (Returns (None, Some connection_refused), s1) /\
    cache s1 = cache store_down /\
    calls s1 = calls store_down ++
      [CallCacheGet "abc" (Err (ErrLib "Entry not found"));
       CallDhtGetFull "abc" (Err (ErrLib "item not found"));
       CallReadRecord "abc" None (Some connection_refused)].
Proof.
  apply (resolve_store_error "abc" (ErrLib "Entry not found") (cache store_down)
           (ErrLib "item not found") (dht store_down) None connection_refused
           (db store_down) store_down).
  - vm_compute. reflexivity.
  - vm_compute. reflexivity.
  - vm_compute. reflexivity.
Defined.

Lemma resolve_unconvertible_record_witness :
  exists s1,
    GetPkarr "short" (sample_service (table_of [short_sig_record])) = (Panics, s1) /\
    cache s1 = cache (sample_service (table_of [short_sig_record])).
Proof.
  edestruct (resolve_unconvertible_record "short" (ErrLib "Entry not found")
               (cache (sample_service (table_of [short_sig_record])))
               (ErrLib "item not found")
               (dht (sample_service (table_of [short_sig_record])))
               short_sig_record (table_of [short_sig_record])
               (sample_service (table_of [short_sig_record])))
    as [_ Hpanic].
  - vm_compute. reflexivity.
  - vm_compute. reflexivity.
  - vm_compute. reflexivity.
  - apply Hpanic. vm_compute. reflexivity.
Defined.

Lemma publish_store_resolve_witness :
  exists err s1,
    GetPkarr id_hello restarted = (Returns (Some (response_of request_hello), err), s1).
Proof.
  apply (publish_store_resolve id_hello request_hello
           (ErrLib "Entry not found") (cache restarted)
           (ErrLib "item not found") (dht restarted) (db restarted) restarted).
  - apply standin_base64_roundtrips.
  - discriminate.
  - vm_compute. reflexivity.
  - vm_compute. reflexivity.
  - vm_compute. reflexivity.
Defined.

Lemma publish_store_failure_stops_witness :
  exists s1,
    PublishPkarr "abc" request_hello store_down = (Returns (Some connection_refused), s1) /\
    cache s1 = cache store_down /\ dht s1 = dht store_down /\
    goroutines s1 = goroutines store_down /\
    calls s1 = calls store_down ++
      [CallWriteRecord (toRecord request_hello) (Some connection_refused)].
Proof.
  apply (publish_store_failure_stops "abc" request_hello connection_refused
           (db store_down) store_down).
  - vm_compute. reflexivity.
  - vm_compute. reflexivity.
Defined.

Lemma published_goroutine_puts_request_witness :
  exists s2,
    go_step published s2 /\
    goroutines s2 = [] /\
    calls s2 = calls published ++
      [CallDhtPut {| put_V := Some hello; put_K := k1;
                     put_Sig := req_Sig request_hello; put_Seq := 1 |} None].
Proof.
  destruct (published_goroutine_puts_request "abc" request_hello
              (sample_service empty_table) published)
    as (s2 & H1 & H2 & H3 & _).
  - vm_compute. reflexivity.
  - exists s2. split; [exact H1|]. split; [exact H2|exact H3].
Defined.

Lemma republish_nothing_to_do_witness :
  exists s1,
    republish store_down = (Returns tt, s1) /\
    dht s1 = dht store_down /\
    calls s1 = [CallListRecords (Err connection_refused)] /\
    log s1 =
      [{| log_level := ErrorLevel; log_error := Some connection_refused;
          log_format := "failed to list record(s) for republishing";
          log_args := [] |}].
Proof.
  apply (republish_nothing_to_do (Err connection_refused) (db store_down) store_down).
  - vm_compute. reflexivity.
  - left. exists connection_refused. reflexivity.
Defined.

Lemma republish_stops_at_panic_witness :
  exists attempts s1,
    republish (refusing_service
                 ([toRecord request_hello] ++ short_sig_record ::
                  [toRecord request_hello_2])) = (Panics, s1) /\
    length attempts = 1%nat /\
    calls s1 =
      CallListRecords (Ok ([toRecord request_hello] ++ short_sig_record ::
                           [toRecord request_hello_2])) ::
      map attempt_call attempts.
Proof.
  destruct (republish_stops_at_panic [toRecord request_hello] short_sig_record
              [toRecord request_hello_2]
              (table_of ([toRecord request_hello] ++ short_sig_record ::
                         [toRecord request_hello_2]))
              (refusing_service ([toRecord request_hello] ++ short_sig_record ::
                                 [toRecord request_hello_2])))
    as (attempts & s1 & H1 & H2 & H3 & _).
  - vm_compute. reflexivity.
  - repeat constructor. apply toRecord_well_formed, standin_base64_roundtrips.
  - vm_compute. reflexivity.
  - exists attempts, s1. split; [exact H1|]. split; [exact H2|exact H3].
Defined.

Lemma republish_repeats_published_puts_witness :
  exists errs s1,
    republish (refusing_service (map toRecord two_requests)) = (Returns tt, s1) /\
    length errs = 2%nat /\
    calls s1 =
      CallListRecords (Ok (map toRecord two_requests)) ::
      zip_with CallDhtPut (map put_of two_requests) errs.
Proof.
  destruct (republish_repeats_published_puts two_requests
              (table_of (map toRecord two_requests))
              (refusing_service (map toRecord two_requests)))
    as (errs & s1 & H1 & H2 & H3).
  - apply standin_base64_roundtrips.
  - repeat constructor; discriminate.
  - vm_compute. reflexivity.
  - exists errs, s1. split; [exact H1|]. split; [exact H2|exact H3].
Defined.

Lemma WriteRecord_then_ReadRecord_witness :
  postgres.ReadRecord (postgres.WriteRecord empty_table args_hello).2
    (postgres.arg_Key args_hello) = (postgres.row_of args_hello, None).
Proof.
  destruct (WriteRecord_then_ReadRecord empty_table
              (postgres.WriteRecord empty_table args_hello).2 args_hello)
    as (_ & _ & H & _).
  - vm_compute. reflexivity.
  - apply H. constructor.
Defined.

End more_examples.

Section strict_examples.
#[local] Existing Instance strict_libs.
#[local] Existing Instance MemCache_Cache.
#[local] Existing Instance MemDHT_DHT.

Abbreviation Svc := (PkarrService postgres.Queries MemCache MemDHT).

Lemma republish_counts_failures_witness :
  exists visits s1,
    republish (refusing_service mixed_records) = (Returns tt, s1) /\
    Forall2 visit_of mixed_records visits /\
    calls s1 = calls (refusing_service mixed_records) ++
      CallListRecords (Ok mixed_records) :: omap visit_call visits /\
    log s1 = log (refusing_service mixed_records) ++
      log_republishing (length mixed_records) :: omap visit_log visits ++
      [log_complete (Z.of_nat (length mixed_records) - failed_count visits)
         (Z.of_nat (length mixed_records))].
Proof.
  apply (republish_counts_failures mixed_records (table_of mixed_records)
           (refusing_service mixed_records)).
  - vm_compute. reflexivity.
  - discriminate.
  - repeat constructor; vm_compute; discriminate.
Defined.

(** That tick: the first record is put, the second does not decode and gets
    no put, the put of the third is refused; one of three is reported. *)
Example republish_one_of_three :
  exists s1,
    republish (refusing_service mixed_records) = (Returns tt, s1) /\
    map (fun c => match c with CallDhtPut p err => Some (put_Seq p, err) | _ => None end)
      (calls s1) = [None; Some (1, None); Some (2, Some (ErrLib "put refused"))] /\
    log s1 = [log_republishing 3;
              log_convert_failed (ErrLib "illegal base64 data");
              log_put_failed (ErrLib "put refused");
              log_complete 1 3].
Proof. eexists. split; [vm_compute; reflexivity|]. split; vm_compute; reflexivity. Qed.

End strict_examples.
